(** * Memristor simulator: device models, waveform generator, simulation driver

    A shallow embedding of [script.js] (the six memristor classes,
    [generateWaveform] and [simulateMemristor]; of the page code the theme
    functions, [updateModelControls] and [runSimulation]) and the
    properties proved about it.

    JavaScript numbers are IEEE-754 binary64 values.  The program text is
    embedded once, over an interface [Number] of the arithmetic it uses, and
    read in two ways:

    - [F64]: Rocq's primitive binary64 floats, the arithmetic the program
      runs on (rounding, signed zeros, infinities and NaN included);
    - [Exact]: the real numbers, the arithmetic the models are designed in
      (no rounding, no overflow, no NaN).

    Every statement says which reading it is about. *)

From Stdlib Require Import ZArith QArith Qreals Reals Lra Lia List Bool String.
From Stdlib Require Import Floats.
Import ListNotations.

Set Warnings "-inexact-float".

(** ** The arithmetic of the program *)

(** The operators and the exactly specified [Math] members the program
    uses.  [lit] reads a decimal literal of the source text. *)
Class Number := {
  num : Type;
  lit : Q -> num;
  add : num -> num -> num;
  sub : num -> num -> num;
  mul : num -> num -> num;
  div : num -> num -> num;
  neg : num -> num;
  rem : num -> num -> num;
  ltb : num -> num -> bool;
  leb : num -> num -> bool;
  Math_max : num -> num -> num;
  Math_min : num -> num -> num;
  Math_sign : num -> num;
  Math_PI : num
}.

(** The [Math] members whose results ECMAScript leaves to the implementation
    (approximations of the mathematical functions). *)
Class MathLib (N : Number) := {
  Math_exp : num -> num;
  Math_log : num -> num;
  Math_sinh : num -> num;
  Math_sin : num -> num;
  Math_pow : num -> num -> num
}.

Declare Scope num_scope.
Delimit Scope num_scope with num.
Bind Scope num_scope with num.
Notation "$ q" := (lit q%Q) (at level 1, q constr at level 0, format "$ q") : num_scope.
Infix "+" := add : num_scope.
Infix "-" := sub : num_scope.
Infix "*" := mul : num_scope.
Infix "/" := div : num_scope.
Infix "mod" := rem : num_scope.
Notation "- x" := (neg x) : num_scope.
Notation "x <? y" := (ltb x y) : num_scope.
Notation "x <=? y" := (leb x y) : num_scope.
Notation "x >? y" := (ltb y x) : num_scope.
Notation "x >=? y" := (leb y x) : num_scope.

(** *** Binary64 *)

Module F64.

Local Open Scope float_scope.

(** A decimal literal denotes the binary64 value nearest to it (ties to
    even).  The quotient is computed with two extra bits and a sticky bit,
    and rounded once. *)
Definition of_Q (q : Q) : float :=
  match Qnum q with
  | Z0 => 0
  | n =>
      let a := Z.abs n in
      let d := Zpos (Qden q) in
      let k := Z.max 0 (56 + Z.log2_up d - Z.log2 a) in
      let (quo, r) := Z.div_eucl (a * 2 ^ k) d in
      let m := (2 * quo + (if Z.eqb r 0 then 0 else 1))%Z in
      SF2Prim (binary_normalize prec emax (if Z.ltb n 0 then - m else m)%Z (- k - 1) false)
  end.

Definition is_neg_zero (x : float) : bool :=
  match classify x with NZero => true | _ => false end.

(** [Math.max] and [Math.min]: NaN if an argument is NaN, and [-0] is
    smaller than [+0]. *)
Definition max (x y : float) : float :=
  if is_nan x || is_nan y then nan
  else if x <? y then y
  else if y <? x then x
  else if is_neg_zero x then y else x.

Definition min (x y : float) : float :=
  if is_nan x || is_nan y then nan
  else if x <? y then x
  else if y <? x then y
  else if is_neg_zero y then y else x.

(** [Math.sign]: NaN and the zeros are returned as they are. *)
Definition sign (x : float) : float :=
  if 0 <? x then 1 else if x <? 0 then -1 else x.

(** The remainder operator [%]: exact, with the sign of the dividend. *)
Definition fmod (x y : float) : float :=
  match Prim2SF x, Prim2SF y with
  | S754_nan, _ | _, S754_nan => nan
  | S754_infinity _, _ => nan
  | _, S754_zero _ => nan
  | _, S754_infinity _ => x
  | S754_zero _, _ => x
  | S754_finite sx mx ex, S754_finite _ my ey =>
      let e := Z.min ex ey in
      let r := ((Zpos mx * 2 ^ (ex - e)) mod (Zpos my * 2 ^ (ey - e)))%Z in
      if Z.eqb r 0 then (if sx then neg_zero else zero)
      else SF2Prim (binary_normalize prec emax (if sx then - r else r)%Z e false)
  end.

Definition PI : float := 0x1.921fb54442d18p+1.

End F64.

Definition F64 : Number := {|
  num := float;
  lit := F64.of_Q;
  add := PrimFloat.add;
  sub := PrimFloat.sub;
  mul := PrimFloat.mul;
  div := PrimFloat.div;
  neg := PrimFloat.opp;
  rem := F64.fmod;
  ltb := PrimFloat.ltb;
  leb := PrimFloat.leb;
  Math_max := F64.max;
  Math_min := F64.min;
  Math_sign := F64.sign;
  Math_PI := F64.PI
|}.

(** *** Exact arithmetic *)

Module Exact.

Local Open Scope R_scope.

Definition Rltb (x y : R) : bool := if Rlt_dec x y then true else false.
Definition Rleb (x y : R) : bool := if Rle_dec x y then true else false.

(** Truncation toward zero. *)
Definition trunc (x : R) : Z :=
  if Rle_dec 0 x then Int_part x else (- Int_part (- x))%Z.

Definition fmod (x y : R) : R := x - y * IZR (trunc (x / y)).

Definition sign (x : R) : R :=
  if Rlt_dec 0 x then 1 else if Rlt_dec x 0 then -1 else x.

End Exact.

Definition Exact : Number := {|
  num := R;
  lit := Q2R;
  add := Rplus;
  sub := Rminus;
  mul := Rmult;
  div := Rdiv;
  neg := Ropp;
  rem := Exact.fmod;
  ltb := Exact.Rltb;
  leb := Exact.Rleb;
  Math_max := Rmax;
  Math_min := Rmin;
  Math_sign := Exact.sign;
  Math_PI := PI
|}.


(** *** The approximated functions *)

(** In exact arithmetic the functions are the mathematical ones.  Where
    [Math.pow] has no real value (a negative base with a fractional
    exponent, a zero base with a negative exponent) the value chosen here
    is immaterial to every statement below. *)
Module ExactMath.

Local Open Scope R_scope.

Definition pow (x y : R) : R :=
  if Req_dec_T y (IZR (Int_part y)) then powerRZ x (Int_part y) else Rpower x y.

End ExactMath.

Definition ExactMath : MathLib Exact :=
  Build_MathLib Exact exp ln sinh sin ExactMath.pow.

(** On binary64, ECMAScript fixes the results of these functions only at
    boundary arguments.  The statements about binary64 hold for every
    realisation [L : MathLib F64]; [F64Math] is one realisation (argument
    reduction and a truncated series: close to an engine's results, not
    bit for bit the same), for evaluating the models where a concrete one
    is needed. *)
Module F64Math.

Local Open Scope float_scope.

Definition of_Z (n : Z) : float := SF2Prim (binary_normalize prec emax n 0 false).

(** The integer nearest to a finite [x]. *)
Definition nearest (x : float) : Z :=
  match Prim2SF x with
  | S754_finite s m e =>
      let a := if Z.leb 0 e then (Zpos m * 2 ^ e)%Z
               else ((Zpos m + 2 ^ (- e - 1)) / 2 ^ (- e))%Z in
      if s then (- a)%Z else a
  | _ => 0%Z
  end.

Definition ln2_hi : float := 0x1.62e42fee00000p-1.
Definition ln2_lo : float := 0x1.a39ef35793c76p-33.

(** [1 + r/1 (1 + r/2 (... (1 + r/k acc)))]. *)
Fixpoint exp_poly (k : nat) (r acc : float) : float :=
  match k with
  | O => acc
  | S k' => exp_poly k' r (1 + r * acc / of_Z (Z.of_nat k))
  end.

Definition exp (x : float) : float :=
  if is_nan x then nan
  else if 709.782712893384 <? x then infinity
  else if x <? -745.1332191019412 then 0
  else
    let k := nearest (x * 0x1.71547652b82fep+0) in
    let r := (x - of_Z k * ln2_hi) - of_Z k * ln2_lo in
    Z.ldexp (exp_poly 14 r 1) k.

(** [1 + s/(2·3) (1 + s/(4·5) (... (1 + s/(2k(2k+1)) acc)))]. *)
Fixpoint odd_poly (k : nat) (s acc : float) : float :=
  match k with
  | O => acc
  | S k' => odd_poly k' s (1 + s * acc / of_Z (2 * Z.of_nat k * (2 * Z.of_nat k + 1)))
  end.

Definition sinh (x : float) : float :=
  if abs x <? 1 then x * odd_poly 10 (x * x) 1
  else if abs x <? 20 then (exp x - exp (- x)) / 2
  else
    let h := exp (abs x / 2) in
    let r := (h / 2) * h in
    if x <? 0 then - r else r.

Definition pi_lo : float := 0x1.1a62633145c07p-53.

Definition sin (x : float) : float :=
  if is_nan x || is_infinity x then nan
  else
    let r := F64.fmod x (2 * F64.PI) in
    let r := if F64.PI <? r then r - 2 * F64.PI - 2 * pi_lo
             else if r <? - F64.PI then r + 2 * F64.PI + 2 * pi_lo else r in
    let r := if F64.PI / 2 <? r then (F64.PI - r) + pi_lo
             else if r <? - (F64.PI / 2) then (- F64.PI - r) - pi_lo else r in
    r * odd_poly 12 (- (r * r)) 1.

(** [1 + s (1/3 + s (1/5 + ...))], the series of [atanh z / z] in [s = z²]. *)
Fixpoint atanh_poly (k : nat) (s acc : float) : float :=
  match k with
  | O => acc
  | S k' => atanh_poly k' s (1 / of_Z (2 * Z.of_nat k' + 1) + s * acc)
  end.

Definition log (x : float) : float :=
  if is_nan x || (x <? 0) then nan
  else if x =? 0 then neg_infinity
  else if is_infinity x then infinity
  else
    let (m, e) := Z.frexp x in
    let (m, e) := if m <? 0x1.6a09e667f3bcdp-1 then (2 * m, (e - 1)%Z) else (m, e) in
    let z := (m - 1) / (m + 1) in
    of_Z e * ln2_hi + (of_Z e * ln2_lo + 2 * z * atanh_poly 12 (z * z) 0).

Definition is_integer (y : float) : bool := F64.fmod y 1 =? 0.
Definition is_odd (y : float) : bool := abs (F64.fmod y 2) =? 1.

(** [Math.pow], with the boundary cases of Number::exponentiate; a small
    integer exponent is a repeated product. *)
Definition pow (x y : float) : float :=
  if is_nan y then nan
  else if y =? 0 then 1
  else if is_nan x then nan
  else if is_infinity y then
    if abs x =? 1 then nan
    else if (1 <? abs x) then (if 0 <? y then infinity else 0)
    else (if 0 <? y then 0 else infinity)
  else if is_infinity x || (x =? 0) then
    let big := xorb (is_infinity x) (y <? 0) in
    let negative := get_sign x && is_odd y in
    if big then (if negative then neg_infinity else infinity)
    else (if negative then neg_zero else 0)
  else if is_integer y && (abs y <=? 1024) then
    let r := Z.iter (Z.abs (nearest y)) (fun acc => acc * x) 1 in
    if y <? 0 then 1 / r else r
  else if x <? 0 then
    if is_integer y then
      let r := exp (y * log (- x)) in
      if is_odd y then - r else r
    else nan
  else exp (y * log x).

End F64Math.

Definition F64Math : MathLib F64 :=
  Build_MathLib F64 F64Math.exp F64Math.log F64Math.sinh F64Math.sin F64Math.pow.

(** ** The device models *)

(** [null] as an argument of [Math.max] converts to [+0]. *)
Definition ToNumber {N : Number} (x : option num) : num :=
  match x with Some v => v | None => ($0)%num end.

Module BiolekMemristor.
Section Class.
Context {N : Number} {L : MathLib N}.
Local Open Scope num_scope.

Record t := mk {
  mu_v : num; D : num; R_ON : num; R_OFF : num;
  w : num; p : num;
  M : num; W : num
}.

Definition set_w (this : t) (w' : num) : t :=
  mk (mu_v this) (D this) (R_ON this) (R_OFF this) w' (p this) (M this) (W this).

Definition _updateMemristance (this : t) : t :=
  let M' := R_ON this * (w this / D this) + R_OFF this * ($1 - (w this / D this)) in
  mk (mu_v this) (D this) (R_ON this) (R_OFF this) (w this) (p this) M' ($1 / M').

(** [M] and [W] are first assigned by [_updateMemristance]; the values
    given to them before that call are never read. *)
Definition constructor (mu_v D R_ON R_OFF : num) (w_init : option num) (p : num) : t :=
  let w0 := match w_init with
            | Some w_init => Math_max $0 (Math_min w_init D)
            | None => D / $2
            end in
  _updateMemristance (mk mu_v D R_ON R_OFF w0 p $0 $0).

Definition default : t := constructor $1e-9 $1e-8 $100 $16e3 None $1.

Definition stepFunction (i : num) : num :=
  if i >=? $0 then $1 else $0.

Definition windowFunction (this : t) (x i : num) : num :=
  $1 - Math_pow (x - stepFunction (- i)) ($2 * p this).

Definition getCurrent (this : t) (V : num) : num :=
  V / M this.

Definition updateState (this : t) (V dt : num) : t :=
  let i := getCurrent this V in
  let f_w := windowFunction this (w this / D this) i in
  let dw_dt := mu_v this * (R_ON this / D this) * i * f_w in
  let this := set_w this (w this + dw_dt * dt) in
  let this := set_w this (Math_max $0 (Math_min (w this) (D this))) in
  _updateMemristance this.

End Class.
End BiolekMemristor.

Module JoglekarMemristor.
Section Class.
Context {N : Number} {L : MathLib N}.
Local Open Scope num_scope.

Record t := mk {
  mu_v : num; D : num; R_ON : num; R_OFF : num;
  w : num; p : num;
  M : num; W : num
}.

Definition set_w (this : t) (w' : num) : t :=
  mk (mu_v this) (D this) (R_ON this) (R_OFF this) w' (p this) (M this) (W this).

Definition _updateMemristance (this : t) : t :=
  let M' := R_ON this * (w this / D this) + R_OFF this * ($1 - (w this / D this)) in
  mk (mu_v this) (D this) (R_ON this) (R_OFF this) (w this) (p this) M' ($1 / M').

Definition constructor (mu_v D R_ON R_OFF : num) (w_init : option num) (p : num) : t :=
  let w0 := match w_init with
            | Some w_init => Math_max $0 (Math_min w_init D)
            | None => D / $2
            end in
  _updateMemristance (mk mu_v D R_ON R_OFF w0 p $0 $0).

Definition default : t := constructor $1e-9 $1e-8 $100 $16e3 None $1.

Definition windowFunction (this : t) (x : num) : num :=
  $1 - Math_pow ($2 * x - $1) ($2 * p this).

Definition getCurrent (this : t) (V : num) : num :=
  V / M this.

Definition updateState (this : t) (V dt : num) : t :=
  let i := getCurrent this V in
  let f_w := windowFunction this (w this / D this) in
  let dw_dt := mu_v this * (R_ON this / D this) * i * f_w in
  let this := set_w this (w this + dw_dt * dt) in
  let this := set_w this (Math_max $0 (Math_min (w this) (D this))) in
  _updateMemristance this.

End Class.
End JoglekarMemristor.

Module LinearIonDriftMemristor.
Section Class.
Context {N : Number}.
Local Open Scope num_scope.

Record t := mk {
  mu_v : num; D : num; R_ON : num; R_OFF : num;
  w : num;
  M : num; W : num
}.

Definition set_w (this : t) (w' : num) : t :=
  mk (mu_v this) (D this) (R_ON this) (R_OFF this) w' (M this) (W this).

Definition _updateMemristance (this : t) : t :=
  let M' := R_ON this * (w this / D this) + R_OFF this * ($1 - (w this / D this)) in
  mk (mu_v this) (D this) (R_ON this) (R_OFF this) (w this) M' ($1 / M').

Definition constructor (mu_v D R_ON R_OFF : num) (w_init : option num) : t :=
  let w0 := match w_init with
            | Some w_init => Math_max $0 (Math_min w_init D)
            | None => D / $2
            end in
  _updateMemristance (mk mu_v D R_ON R_OFF w0 $0 $0).

Definition default : t := constructor $1e-9 $1e-8 $100 $16e3 None.

Definition getCurrent (this : t) (V : num) : num :=
  V / M this.

Definition updateState (this : t) (V dt : num) : t :=
  let i := getCurrent this V in
  let dw_dt := (mu_v this * R_ON this / D this) * i in
  let this := set_w this (w this + dw_dt * dt) in
  let this := set_w this (Math_max $0 (Math_min (w this) (D this))) in
  _updateMemristance this.

End Class.
End LinearIonDriftMemristor.

Module VTEAMMemristor.
Section Class.
Context {N : Number} {L : MathLib N}.
Local Open Scope num_scope.

Record t := mk {
  k_off : num; k_on : num; alpha_off : num; alpha_on : num;
  w_off : num; w_on : num;
  w : num;
  a_off : num; a_on : num; w_c : num;
  u_off : num; u_on : num;
  R_on : num; R_off : num;
  M : num; W : num
}.

Definition set_w (this : t) (w' : num) : t :=
  mk (k_off this) (k_on this) (alpha_off this) (alpha_on this) (w_off this) (w_on this)
     w' (a_off this) (a_on this) (w_c this) (u_off this) (u_on this)
     (R_on this) (R_off this) (M this) (W this).

Definition f_off (this : t) (w : num) : num :=
  Math_exp (- Math_exp ((w - a_off this) / w_c this)).

Definition f_on (this : t) (w : num) : num :=
  Math_exp (- Math_exp (- (w - a_on this) / w_c this)).

Definition _updateMemristance (this : t) : t :=
  let lambda := Math_log (R_off this / R_on this) in
  let M' := R_on this * Math_exp ((lambda / (w_off this - w_on this)) * (w this - w_on this)) in
  mk (k_off this) (k_on this) (alpha_off this) (alpha_on this) (w_off this) (w_on this)
     (w this) (a_off this) (a_on this) (w_c this) (u_off this) (u_on this)
     (R_on this) (R_off this) M' ($1 / M').

Definition constructor (k_off k_on alpha_off alpha_on w_off w_on : num)
    (w_init : option num) (a_off a_on w_c u_off u_on R_on R_off : num) : t :=
  let w0 := Math_min w_off (Math_max w_on (ToNumber w_init)) in
  _updateMemristance
    (mk k_off k_on alpha_off alpha_on w_off w_on w0 a_off a_on w_c u_off u_on
        R_on R_off $0 $0).

Definition default : t :=
  constructor $5e-4 (- $10) $3 $1 $3e-9 $0 (Some $0) $0.8 $0.2 $0.12 $0.5 (- $0.5)
              $100 $2.5e3.

Definition updateState (this : t) (u dt : num) : t :=
  let dw_dt :=
    if ($0 <? u_off this) && (u >? u_off this) then
      k_off this * Math_pow (u / u_off this - $1) (alpha_off this) * f_off this (w this)
    else if (u <? u_on this) && (u_on this <? $0) then
      k_on this * Math_pow (u / u_on this - $1) (alpha_on this) * f_on this (w this)
    else $0 in
  let this := set_w this (Math_min (w_off this) (Math_max (w_on this) (w this + dw_dt * dt))) in
  _updateMemristance this.

Definition getCurrent (this : t) (u : num) : num :=
  let lambda := Math_log (R_off this / R_on this) in
  let expTerm := Math_exp ((- lambda / (w_off this - w_on this)) * (w this - w_on this)) in
  (u / R_on this) * expTerm.

End Class.
End VTEAMMemristor.

Module MMSMemristor.
Section Class.
Context {N : Number} {L : MathLib N}.
Local Open Scope num_scope.

Record t := mk {
  R_on : num; R_off : num; U_on : num; U_off : num;
  tau : num; T : num; q : num; k : num;
  x : num;
  W : num; M : num
}.

Definition set_x (this : t) (x' : num) : t :=
  mk (R_on this) (R_off this) (U_on this) (U_off this) (tau this) (T this)
     (q this) (k this) x' (W this) (M this).

Definition _updateMemristance (this : t) : t :=
  let W' := x this / R_on this + ($1 - x this) / R_off this in
  mk (R_on this) (R_off this) (U_on this) (U_off this) (tau this) (T this)
     (q this) (k this) (x this) W' ($1 / W').

Definition constructor (R_on R_off U_on U_off tau T x_init : num) : t :=
  _updateMemristance
    (mk R_on R_off U_on U_off tau T $1.602176634e-19 $1.380649e-23
        (Math_max $0 (Math_min x_init $1)) $0 $0).

Definition default : t := constructor $500 $1500 $0.27 $0.27 $1e-4 $298.5 $0.

Definition updateState (this : t) (V dt : num) : t :=
  let alpha := dt / tau this in
  let beta := q this / (k this * T this) in
  let P_on := alpha / ($1 + Math_exp (- beta * (V - U_on this))) in
  let P_off := alpha * ($1 - $1 / ($1 + Math_exp (- beta * (V + U_off this)))) in
  let N_on := P_on * ($1 - x this) in
  let N_off := P_off * x this in
  let this := set_x this (x this + (N_on - N_off)) in
  let this := set_x this (Math_max $0 (Math_min (x this) $1)) in
  _updateMemristance this.

Definition getCurrent (this : t) (V : num) : num :=
  V * W this.

End Class.
End MMSMemristor.

Module YakopcicMemristor.
Section Class.
Context {N : Number} {L : MathLib N}.
Local Open Scope num_scope.

Record t := mk {
  A_p : num; A_n : num; U_p : num; U_n : num;
  alpha_p : num; alpha_n : num; x_p : num; x_n : num;
  a1 : num; a2 : num; b : num;
  x_on : num;
  x : num;
  W : num; M : num
}.

Definition set_x (this : t) (x' : num) : t :=
  mk (A_p this) (A_n this) (U_p this) (U_n this) (alpha_p this) (alpha_n this)
     (x_p this) (x_n this) (a1 this) (a2 this) (b this) (x_on this) x'
     (W this) (M this).

Definition _updateMemristance (this : t) : t :=
  let W' := a1 this * x this * Math_sinh (b this) in
  mk (A_p this) (A_n this) (U_p this) (U_n this) (alpha_p this) (alpha_n this)
     (x_p this) (x_n this) (a1 this) (a2 this) (b this) (x_on this) (x this)
     W' ($1 / W').

Definition constructor (A_p A_n U_p U_n alpha_p alpha_n x_p x_n a1 a2 b x_init x_on : num) : t :=
  _updateMemristance
    (mk A_p A_n U_p U_n alpha_p alpha_n x_p x_n a1 a2 b x_on
        (Math_min $1 (Math_max x_on x_init)) $0 $0).

Definition default : t :=
  constructor $4000 $4000 $0.5 $0.5 $1 $5 $0.3 $0.3 $0.17 $0.17 $0.05 $0 $0.

Definition g (this : t) (u : num) : num :=
  if u >? U_p this then A_p this * (Math_exp u - Math_exp (U_p this))
  else if u <? - U_n this then - A_n this * (Math_exp (- u) - Math_exp (U_n this))
  else $0.

Definition f_p (this : t) (x : num) : num :=
  if x >=? x_p this then
    let wp := (x_p this - x) / ($1 - x_p this) + $1 in
    Math_exp (- alpha_p this * (x - x_p this)) * wp
  else $1.

Definition f_n (this : t) (x : num) : num :=
  if x <=? ($1 - x_n this) then
    let wn := x / ($1 - x_n this) in
    Math_exp (alpha_n this * (x + x_n this - $1)) * wn
  else $1.

Definition f (this : t) (x u : num) : num :=
  if u >=? $0 then f_p this x else f_n this x.

Definition updateState (this : t) (u dt : num) : t :=
  let dx := g this u * f this (x this) u in
  let this := set_x this (Math_min $1 (Math_max (x_on this) (x this + dx * dt))) in
  _updateMemristance this.

Definition getCurrent (this : t) (u : num) : num :=
  if u >=? $0 then a1 this * x this * Math_sinh (b this * u)
  else a2 this * x this * Math_sinh (b this * u).

End Class.
End YakopcicMemristor.

(** ** Waveform generators *)

Section Waveform.
Context {N : Number} {L : MathLib N}.
Local Open Scope num_scope.

Definition generateWaveform (type : string) (t : list num) (frequency amplitude : num)
  : list num :=
  let omega := $2 * Math_PI * frequency in
  if String.eqb type "sine"%string then
    map (fun time => amplitude * Math_sin (omega * time)) t
  else if String.eqb type "square"%string then
    map (fun time => amplitude * Math_sign (Math_sin (omega * time))) t
  else if String.eqb type "triangle"%string then
    map (fun time =>
           let phase := (omega * time) mod ($2 * Math_PI) in
           if phase <? Math_PI then amplitude * ($2 * phase / Math_PI - $1)
           else amplitude * ($3 - $2 * phase / Math_PI)) t
  else if String.eqb type "sawtooth"%string then
    map (fun time =>
           let phase := (omega * time) mod ($2 * Math_PI) in
           amplitude * ($2 * phase / ($2 * Math_PI) - $1)) t
  else
    map (fun time => amplitude * Math_sin (omega * time)) t.

End Waveform.

(** ** Simulation function *)

(** What [simulateMemristor] asks of its first argument: the two methods it
    calls.  [updateState] returns the object after the mutation. *)
Class MemristorModel {N : Number} (T : Type) := {
  getCurrent : T -> num -> num;
  updateState : T -> num -> num -> T
}.

Section Simulation.
Context {N : Number} {T : Type} {Model : MemristorModel T}.

(** One turn of the loop body; the state is the object and the array
    [I_mem] built so far. *)
Definition simulateStep (dt : num) (st : T * list num) (V : num) : T * list num :=
  let (memristor, I_mem) := st in
  let current := getCurrent memristor V in
  let I_mem := I_mem ++ [current] in
  let memristor := updateState memristor V dt in
  (memristor, I_mem).

(** The object as the loop leaves it, and the returned array. *)
Definition simulateLoop (memristor : T) (V_seq : list num) (dt : num) : T * list num :=
  fold_left (simulateStep dt) V_seq (memristor, []).

Definition simulateMemristor (memristor : T) (V_seq : list num) (dt : num) : list num :=
  snd (simulateLoop memristor V_seq dt).

(** The object after [updateState] has been called once for each voltage
    of [V_seq], in order. *)
Definition advanced (memristor : T) (V_seq : list num) (dt : num) : T :=
  fold_left (fun m V => updateState m V dt) V_seq memristor.

(** *** The same loop on a store of objects

    [simulateMemristor] receives a reference and mutates the object behind
    it.  Here the objects live in a store, a list addressed by position:
    [new] allocates, the loop reads and writes the object at an address.
    (An address that holds no object is not met: [run] passes the address
    it has just allocated.) *)

Definition store : Type := list T.

Definition new (s : store) (o : T) : nat * store := (List.length s, s ++ [o]).

Fixpoint write (s : store) (a : nat) (o : T) : store :=
  match s, a with
  | [], _ => []
  | _ :: rest, O => o :: rest
  | x :: rest, S a' => x :: write rest a' o
  end.

Definition simulateStepAt (a : nat) (dt : num) (st : store * list num) (V : num)
  : store * list num :=
  let (s, I_mem) := st in
  match nth_error s a with
  | Some memristor =>
      let current := getCurrent memristor V in
      (write s a (updateState memristor V dt), I_mem ++ [current])
  | None => (s, I_mem)
  end.

Definition simulateMemristorAt (s : store) (a : nat) (V_seq : list num) (dt : num)
  : store * list num :=
  fold_left (simulateStepAt a dt) V_seq (s, []).

(** One run, as [runSimulation] makes it: a newly constructed object [o]
    enters the store, and the loop works on it. *)
Definition run (s : store) (o : T) (V_seq : list num) (dt : num) : store * list num :=
  let (a, s') := new s o in
  simulateMemristorAt s' a V_seq dt.

End Simulation.

(** The six classes as models, and the value of the variable [memristor]
    of [runSimulation] once a known model is selected. *)
Inductive Memristor {N : Number} : Type :=
  | Biolek (m : BiolekMemristor.t)
  | Joglekar (m : JoglekarMemristor.t)
  | LinearIonDrift (m : LinearIonDriftMemristor.t)
  | VTEAM (m : VTEAMMemristor.t)
  | MMS (m : MMSMemristor.t)
  | Yakopcic (m : YakopcicMemristor.t).

#[export] Instance Memristor_model {N : Number} {L : MathLib N} : MemristorModel Memristor := {|
  getCurrent m V :=
    match m with
    | Biolek m => BiolekMemristor.getCurrent m V
    | Joglekar m => JoglekarMemristor.getCurrent m V
    | LinearIonDrift m => LinearIonDriftMemristor.getCurrent m V
    | VTEAM m => VTEAMMemristor.getCurrent m V
    | MMS m => MMSMemristor.getCurrent m V
    | Yakopcic m => YakopcicMemristor.getCurrent m V
    end;
  updateState m V dt :=
    match m with
    | Biolek m => Biolek (BiolekMemristor.updateState m V dt)
    | Joglekar m => Joglekar (JoglekarMemristor.updateState m V dt)
    | LinearIonDrift m => LinearIonDrift (LinearIonDriftMemristor.updateState m V dt)
    | VTEAM m => VTEAM (VTEAMMemristor.updateState m V dt)
    | MMS m => MMS (MMSMemristor.updateState m V dt)
    | Yakopcic m => Yakopcic (YakopcicMemristor.updateState m V dt)
    end
|}.



(** ** Vocabulary of the properties *)

Section Readouts.
Context {N : Number}.
Local Open Scope num_scope.

(** The internal state variable of a model, the bounds of its domain, and
    the stored memristance [M] and conductance [W]. *)
Definition state (m : Memristor) : num :=
  match m with
  | Biolek m => BiolekMemristor.w m
  | Joglekar m => JoglekarMemristor.w m
  | LinearIonDrift m => LinearIonDriftMemristor.w m
  | VTEAM m => VTEAMMemristor.w m
  | MMS m => MMSMemristor.x m
  | Yakopcic m => YakopcicMemristor.x m
  end.

Definition lo (m : Memristor) : num :=
  match m with
  | Biolek _ | Joglekar _ | LinearIonDrift _ | MMS _ => $0
  | VTEAM m => VTEAMMemristor.w_on m
  | Yakopcic m => YakopcicMemristor.x_on m
  end.

Definition hi (m : Memristor) : num :=
  match m with
  | Biolek m => BiolekMemristor.D m
  | Joglekar m => JoglekarMemristor.D m
  | LinearIonDrift m => LinearIonDriftMemristor.D m
  | VTEAM m => VTEAMMemristor.w_off m
  | MMS _ | Yakopcic _ => $1
  end.

Definition inDomain (m : Memristor) : bool :=
  (lo m <=? state m) && (state m <=? hi m).

Definition memristance (m : Memristor) : num :=
  match m with
  | Biolek m => BiolekMemristor.M m
  | Joglekar m => JoglekarMemristor.M m
  | LinearIonDrift m => LinearIonDriftMemristor.M m
  | VTEAM m => VTEAMMemristor.M m
  | MMS m => MMSMemristor.M m
  | Yakopcic m => YakopcicMemristor.M m
  end.

Definition conductance (m : Memristor) : num :=
  match m with
  | Biolek m => BiolekMemristor.W m
  | Joglekar m => JoglekarMemristor.W m
  | LinearIonDrift m => LinearIonDriftMemristor.W m
  | VTEAM m => VTEAMMemristor.W m
  | MMS m => MMSMemristor.W m
  | Yakopcic m => YakopcicMemristor.W m
  end.

(** The saturating clamp each class applies to the stepped state: four of
    them nest [Math.min] inside [Math.max], two the other way round. *)
Definition clamp (m : Memristor) (s : num) : num :=
  match m with
  | Biolek _ | Joglekar _ | LinearIonDrift _ | MMS _ => Math_max (lo m) (Math_min s (hi m))
  | VTEAM _ | Yakopcic _ => Math_min (hi m) (Math_max (lo m) s)
  end.

Context {L : MathLib N}.

(** The state after the forward Euler step of [updateState], before it is
    clamped. *)
Definition eulerStep (m : Memristor) (V dt : num) : num :=
  match m with
  | Biolek m =>
      let i := BiolekMemristor.getCurrent m V in
      let f_w := BiolekMemristor.windowFunction m
                   (BiolekMemristor.w m / BiolekMemristor.D m) i in
      let dw_dt := BiolekMemristor.mu_v m
                   * (BiolekMemristor.R_ON m / BiolekMemristor.D m) * i * f_w in
      BiolekMemristor.w m + dw_dt * dt
  | Joglekar m =>
      let i := JoglekarMemristor.getCurrent m V in
      let f_w := JoglekarMemristor.windowFunction m
                   (JoglekarMemristor.w m / JoglekarMemristor.D m) in
      let dw_dt := JoglekarMemristor.mu_v m
                   * (JoglekarMemristor.R_ON m / JoglekarMemristor.D m) * i * f_w in
      JoglekarMemristor.w m + dw_dt * dt
  | LinearIonDrift m =>
      let i := LinearIonDriftMemristor.getCurrent m V in
      let dw_dt := (LinearIonDriftMemristor.mu_v m * LinearIonDriftMemristor.R_ON m
                    / LinearIonDriftMemristor.D m) * i in
      LinearIonDriftMemristor.w m + dw_dt * dt
  | VTEAM m =>
      let dw_dt :=
        if ($0 <? VTEAMMemristor.u_off m) && (V >? VTEAMMemristor.u_off m) then
          VTEAMMemristor.k_off m
          * Math_pow (V / VTEAMMemristor.u_off m - $1) (VTEAMMemristor.alpha_off m)
          * VTEAMMemristor.f_off m (VTEAMMemristor.w m)
        else if (V <? VTEAMMemristor.u_on m) && (VTEAMMemristor.u_on m <? $0) then
          VTEAMMemristor.k_on m
          * Math_pow (V / VTEAMMemristor.u_on m - $1) (VTEAMMemristor.alpha_on m)
          * VTEAMMemristor.f_on m (VTEAMMemristor.w m)
        else $0 in
      VTEAMMemristor.w m + dw_dt * dt
  | MMS m =>
      let alpha := dt / MMSMemristor.tau m in
      let beta := MMSMemristor.q m / (MMSMemristor.k m * MMSMemristor.T m) in
      let P_on := alpha / ($1 + Math_exp (- beta * (V - MMSMemristor.U_on m))) in
      let P_off :=
        alpha * ($1 - $1 / ($1 + Math_exp (- beta * (V + MMSMemristor.U_off m)))) in
      let N_on := P_on * ($1 - MMSMemristor.x m) in
      let N_off := P_off * MMSMemristor.x m in
      MMSMemristor.x m + (N_on - N_off)
  | Yakopcic m =>
      let dx := YakopcicMemristor.g m V
                * YakopcicMemristor.f m (YakopcicMemristor.x m) V in
      YakopcicMemristor.x m + dx * dt
  end.

(** The objects the constructors build, and those a run can reach from
    them. *)
Inductive constructed : Memristor -> Prop :=
  | new_Biolek mu_v D R_ON R_OFF w_init p :
      constructed (Biolek (BiolekMemristor.constructor mu_v D R_ON R_OFF w_init p))
  | new_Joglekar mu_v D R_ON R_OFF w_init p :
      constructed (Joglekar (JoglekarMemristor.constructor mu_v D R_ON R_OFF w_init p))
  | new_LinearIonDrift mu_v D R_ON R_OFF w_init :
      constructed (LinearIonDrift (LinearIonDriftMemristor.constructor mu_v D R_ON R_OFF w_init))
  | new_VTEAM k_off k_on alpha_off alpha_on w_off w_on w_init a_off a_on w_c u_off u_on R_on R_off :
      constructed (VTEAM (VTEAMMemristor.constructor k_off k_on alpha_off alpha_on w_off w_on
                            w_init a_off a_on w_c u_off u_on R_on R_off))
  | new_MMS R_on R_off U_on U_off tau T x_init :
      constructed (MMS (MMSMemristor.constructor R_on R_off U_on U_off tau T x_init))
  | new_Yakopcic A_p A_n U_p U_n alpha_p alpha_n x_p x_n a1 a2 b x_init x_on :
      constructed (Yakopcic (YakopcicMemristor.constructor A_p A_n U_p U_n alpha_p alpha_n
                               x_p x_n a1 a2 b x_init x_on)).

Inductive reachable : Memristor -> Prop :=
  | reach_new m : constructed m -> reachable m
  | reach_update m V dt : reachable m -> reachable (updateState m V dt).

End Readouts.

(** *** Binary64: well-formed readouts, and the order of the numbers *)

Module F64Spec.

Local Open Scope float_scope.

Definition nonzero_number (x : float) : bool := negb (is_nan x) && negb (x =? 0).

(** The quantities [getCurrent] divides by or multiplies with are
    well-formed: a stored memristance is a number other than zero, a factor
    is finite. *)
Definition current_defined (L : MathLib F64) (m : @Memristor F64) : bool :=
  match m with
  | Biolek m => nonzero_number (BiolekMemristor.M m)
  | Joglekar m => nonzero_number (JoglekarMemristor.M m)
  | LinearIonDrift m => nonzero_number (LinearIonDriftMemristor.M m)
  | VTEAM m =>
      nonzero_number (VTEAMMemristor.R_on m)
      && is_finite (Math_exp
           (- Math_log (VTEAMMemristor.R_off m / VTEAMMemristor.R_on m)
              / (VTEAMMemristor.w_off m - VTEAMMemristor.w_on m)
            * (VTEAMMemristor.w m - VTEAMMemristor.w_on m)))
  | MMS m => is_finite (MMSMemristor.W m)
  | Yakopcic m =>
      is_finite (YakopcicMemristor.a1 m * YakopcicMemristor.x m)
      && is_finite (YakopcicMemristor.b m)
  end.

(** The order of binary64 numbers as a lexicographic order on integer
    triples: the class (infinities, negative, zero, positive), then the
    exponent, then the mantissa. *)
Definition key (x : spec_float) : Z * Z * Z :=
  match x with
  | S754_nan | S754_zero _ => (0, 0, 0)%Z
  | S754_infinity s => (if s then -2 else 2, 0, 0)%Z
  | S754_finite s m e => if s then (-1, - e, - Zpos m)%Z else (1, e, Zpos m)%Z
  end.

Definition fkey (x : float) : Z * Z * Z := key (Prim2SF x).

Definition lexlt (a b : Z * Z * Z) : Prop :=
  let '(a1, a2, a3) := a in
  let '(b1, b2, b3) := b in
  (a1 < b1 \/ (a1 = b1 /\ (a2 < b2 \/ (a2 = b2 /\ a3 < b3))))%Z.

Definition lexle (a b : Z * Z * Z) : Prop :=
  let '(a1, a2, a3) := a in
  let '(b1, b2, b3) := b in
  (a1 < b1 \/ (a1 = b1 /\ (a2 < b2 \/ (a2 = b2 /\ a3 <= b3))))%Z.

End F64Spec.

(** *** Exact arithmetic: parameters for which the models are defined *)

Module ExactSpec.

Local Open Scope R_scope.

(** Positive resistances and a domain that is a proper interval; for the
    Yakopcic model positive gain and slope and a positive floor. *)
Definition params_ok (m : @Memristor Exact) : Prop :=
  match m with
  | Biolek m =>
      0 < BiolekMemristor.D m /\ 0 < BiolekMemristor.R_ON m /\ 0 < BiolekMemristor.R_OFF m
  | Joglekar m =>
      0 < JoglekarMemristor.D m /\ 0 < JoglekarMemristor.R_ON m
      /\ 0 < JoglekarMemristor.R_OFF m
  | LinearIonDrift m =>
      0 < LinearIonDriftMemristor.D m /\ 0 < LinearIonDriftMemristor.R_ON m
      /\ 0 < LinearIonDriftMemristor.R_OFF m
  | VTEAM m =>
      VTEAMMemristor.w_on m < VTEAMMemristor.w_off m
      /\ 0 < VTEAMMemristor.R_on m /\ 0 < VTEAMMemristor.R_off m
  | MMS m => 0 < MMSMemristor.R_on m /\ 0 < MMSMemristor.R_off m
  | Yakopcic m =>
      0 < YakopcicMemristor.a1 m /\ 0 < YakopcicMemristor.b m
      /\ 0 < YakopcicMemristor.x_on m <= 1
  end.

(** Every divisor met on the way to [M], [W] and the current is other than
    zero, and the logarithm has a positive argument.  (The Yakopcic current
    divides by nothing.) *)
Definition defined (m : @Memristor Exact) : Prop :=
  match m with
  | Biolek m => BiolekMemristor.D m <> 0 /\ BiolekMemristor.M m <> 0
  | Joglekar m => JoglekarMemristor.D m <> 0 /\ JoglekarMemristor.M m <> 0
  | LinearIonDrift m =>
      LinearIonDriftMemristor.D m <> 0 /\ LinearIonDriftMemristor.M m <> 0
  | VTEAM m =>
      VTEAMMemristor.R_on m <> 0
      /\ VTEAMMemristor.w_off m - VTEAMMemristor.w_on m <> 0
      /\ 0 < VTEAMMemristor.R_off m / VTEAMMemristor.R_on m
  | MMS m =>
      MMSMemristor.R_on m <> 0 /\ MMSMemristor.R_off m <> 0 /\ MMSMemristor.W m <> 0
  | Yakopcic _ => True
  end.

End ExactSpec.

(** *** Resetting the state and recomputing the readouts *)

Section Recompute.
Context {N : Number} {L : MathLib N}.

(** The object with its state variable assigned, as the two assignments of
    an [updateState] leave it before [_updateMemristance] runs. *)
Definition with_state (m : Memristor) (s : num) : Memristor :=
  match m with
  | Biolek m => Biolek (BiolekMemristor.set_w m s)
  | Joglekar m => Joglekar (JoglekarMemristor.set_w m s)
  | LinearIonDrift m => LinearIonDrift (LinearIonDriftMemristor.set_w m s)
  | VTEAM m => VTEAM (VTEAMMemristor.set_w m s)
  | MMS m => MMS (MMSMemristor.set_x m s)
  | Yakopcic m => Yakopcic (YakopcicMemristor.set_x m s)
  end.

(** A call of the object's [_updateMemristance]. *)
Definition recompute (m : Memristor) : Memristor :=
  match m with
  | Biolek m => Biolek (BiolekMemristor._updateMemristance m)
  | Joglekar m => Joglekar (JoglekarMemristor._updateMemristance m)
  | LinearIonDrift m => LinearIonDrift (LinearIonDriftMemristor._updateMemristance m)
  | VTEAM m => VTEAM (VTEAMMemristor._updateMemristance m)
  | MMS m => MMS (MMSMemristor._updateMemristance m)
  | Yakopcic m => Yakopcic (YakopcicMemristor._updateMemristance m)
  end.

End Recompute.

(** *** Exact arithmetic: voltages under which the state equation is at rest *)

Module ExactRest.

Local Open Scope R_scope.

(** The voltages at which the right-hand side of the state equation
    vanishes whatever the state: zero for the three drift models (the
    current is zero), the window between the thresholds for the VTEAM model
    (a threshold of the wrong sign disables its branch) and for the Yakopcic
    model ([g] is zero).  The MMS probabilities vanish at no voltage. *)
Definition quiescent (m : @Memristor Exact) (u : R) : Prop :=
  match m with
  | Biolek _ | Joglekar _ | LinearIonDrift _ => u = 0
  | VTEAM v =>
      (u <= VTEAMMemristor.u_off v \/ VTEAMMemristor.u_off v <= 0)
      /\ (VTEAMMemristor.u_on v <= u \/ 0 <= VTEAMMemristor.u_on v)
  | MMS _ => False
  | Yakopcic y => - YakopcicMemristor.U_n y <= u <= YakopcicMemristor.U_p y
  end.

(** Models whose state drifts with the sign of the voltage: the linear,
    Biolek and Joglekar models with a mobility that is not negative (and a
    natural window exponent), the VTEAM model with [k_off >= 0 >= k_on],
    the Yakopcic model with gains and thresholds that are not negative and
    window knees below 1.  The MMS model is not of this kind: the sign of
    its step depends on the state. *)
Definition drifts_with_voltage (m : @Memristor Exact) : Prop :=
  match m with
  | Biolek b =>
      0 <= BiolekMemristor.mu_v b /\ exists n : nat, BiolekMemristor.p b = INR n
  | Joglekar j =>
      0 <= JoglekarMemristor.mu_v j /\ exists n : nat, JoglekarMemristor.p j = INR n
  | LinearIonDrift l => 0 <= LinearIonDriftMemristor.mu_v l
  | VTEAM v => 0 <= VTEAMMemristor.k_off v /\ VTEAMMemristor.k_on v <= 0
  | MMS _ => False
  | Yakopcic y =>
      0 <= YakopcicMemristor.A_p y /\ 0 <= YakopcicMemristor.A_n y
      /\ 0 <= YakopcicMemristor.U_p y /\ 0 <= YakopcicMemristor.U_n y
      /\ YakopcicMemristor.x_p y < 1 /\ YakopcicMemristor.x_n y < 1
  end.

End ExactRest.

(** ** Theme management *)

(** The part of the page the theme functions read and write: the
    [data-theme] attribute of the document element, the [theme] item of
    local storage, the toggle button (the class of its icon and the text of
    its label) where the page has one, the system's colour scheme, the
    listeners registered for its changes, and whether [window.simulatorUI]
    is set.  [simulations] counts the calls of [runSimulation]. *)
Module Theme.

Local Open Scope string_scope.

Record page := mkPage {
  data_theme : option string;
  stored_theme : option string;
  themeToggle : option (string * string);
  prefers_dark : bool;
  listeners : nat;
  simulatorUI : bool;
  simulations : nat
}.

(** A string is truthy unless it is [null] or empty. *)
Definition truthy (s : option string) : bool :=
  match s with
  | Some s => negb (String.eqb s "")
  | None => false
  end.

Definition getSystemTheme (p : page) : string :=
  if prefers_dark p then "dark" else "light".

Definition setAttribute (theme : string) (p : page) : page :=
  mkPage (Some theme) (stored_theme p) (themeToggle p) (prefers_dark p)
         (listeners p) (simulatorUI p) (simulations p).

Definition setItem (theme : string) (p : page) : page :=
  mkPage (data_theme p) (Some theme) (themeToggle p) (prefers_dark p)
         (listeners p) (simulatorUI p) (simulations p).

Definition addEventListener (p : page) : page :=
  mkPage (data_theme p) (stored_theme p) (themeToggle p) (prefers_dark p)
         (S (listeners p)) (simulatorUI p) (simulations p).

Definition call_runSimulation (p : page) : page :=
  mkPage (data_theme p) (stored_theme p) (themeToggle p) (prefers_dark p)
         (listeners p) (simulatorUI p) (S (simulations p)).

Definition updateThemeButton (theme : string) (p : page) : page :=
  match themeToggle p with
  | Some _ =>
      let button :=
        if String.eqb theme "dark" then ("fas fa-moon icon", "Dark")
        else ("fas fa-sun icon", "Light") in
      mkPage (data_theme p) (stored_theme p) (Some button) (prefers_dark p)
             (listeners p) (simulatorUI p) (simulations p)
  | None => p
  end.

Definition initializeTheme (p : page) : page :=
  let savedTheme := stored_theme p in
  let theme := match savedTheme with
               | Some saved => if String.eqb saved "" then getSystemTheme p else saved
               | None => getSystemTheme p
               end in
  let p := setAttribute theme p in
  let p := updateThemeButton theme p in
  if negb (truthy savedTheme) then addEventListener p else p.

(** The listener [initializeTheme] registers, called with [e.matches]. *)
Definition onSystemChange (matches : bool) (p : page) : page :=
  if negb (truthy (stored_theme p)) then
    let newTheme := if matches then "dark" else "light" in
    let p := setAttribute newTheme p in
    let p := updateThemeButton newTheme p in
    if simulatorUI p then call_runSimulation p else p
  else p.

(** The system's colour scheme changes: every registered listener runs. *)
Definition systemChange (matches : bool) (p : page) : page :=
  let p := mkPage (data_theme p) (stored_theme p) (themeToggle p) matches
                  (listeners p) (simulatorUI p) (simulations p) in
  Nat.iter (listeners p) (onSystemChange matches) p.

Definition toggleTheme (p : page) : page :=
  let currentTheme := data_theme p in
  let newTheme := match currentTheme with
                  | Some current => if String.eqb current "dark" then "light" else "dark"
                  | None => "dark"
                  end in
  let p := setAttribute newTheme p in
  let p := setItem newTheme p in
  let p := updateThemeButton newTheme p in
  if simulatorUI p then call_runSimulation p else p.

Record colors := mkColors {
  gridColor : string; zerolineColor : string; backgroundColor : string;
  textColor : string; lineColor : string
}.

Definition getChartColors (p : page) : colors :=
  let isDark := match data_theme p with
                | Some theme => String.eqb theme "dark"
                | None => false
                end in
  mkColors (if isDark then "#334155" else "#e2e8f0")
           (if isDark then "#475569" else "#cbd5e0")
           (if isDark then "#1e293b" else "#ffffff")
           (if isDark then "#f1f5f9" else "#2d3748")
           (if isDark then "#818cf8" else "#4f46e5").

(** The handler of [DOMContentLoaded]: the theme is initialised, then the
    [SimulatorUI] is built, whose constructor ends with a call of
    [runSimulation], and stored in [window.simulatorUI]. *)
Definition DOMContentLoaded (p : page) : page :=
  let p := initializeTheme p in
  let p := call_runSimulation p in
  mkPage (data_theme p) (stored_theme p) (themeToggle p) (prefers_dark p)
         (listeners p) true (simulations p).

(** What happens to a page once it is loaded: clicks on the toggle button,
    which [setupEventListeners] wires to [toggleTheme] where the page has
    the button, and changes of the system's colour scheme. *)
Inductive event := Click | SystemChange (matches : bool).

Definition handle (p : page) (e : event) : page :=
  match e with
  | Click => match themeToggle p with Some _ => toggleTheme p | None => p end
  | SystemChange matches => systemChange matches p
  end.

Definition session (p : page) (events : list event) : page :=
  fold_left handle events (DOMContentLoaded p).

(** The theme a page is meant to show: the saved preference where there is
    one, the system's colour scheme otherwise. *)
Definition preferred (p : page) : string :=
  match stored_theme p with
  | Some saved => if String.eqb saved "" then getSystemTheme p else saved
  | None => getSystemTheme p
  end.

(** The button as [updateThemeButton] draws it for a theme. *)
Definition button_for (theme : string) : string * string :=
  if String.eqb theme "dark" then ("fas fa-moon icon", "Dark")
  else ("fas fa-sun icon", "Light").

(** Whether the page has the toggle button. *)
Definition has_button (p : page) : bool :=
  match themeToggle p with Some _ => true | None => false end.

(** What every session keeps true of the page. *)
Record consistent (p : page) : Prop := {
  shows_preferred : data_theme p = Some (preferred p);
  button_agrees : forall b, themeToggle p = Some b -> b = button_for (preferred p);
  listens : truthy (stored_theme p) = false -> (0 < listeners p)%nat
}.

End Theme.

(** ** Model-specific parameter rows *)

(** The elements of the document as [updateModelControls] sees them: the
    class list of each and its [style.display].  [m] is the value of the
    model selector, a class name once prefixed. *)
Module Controls.

Local Open Scope string_scope.

Record element := mkElement {
  classList : list string;
  display : string
}.

Definition matches (class : string) (el : element) : bool :=
  existsb (String.eqb class) (classList el).

Definition set_display (value : string) (el : element) : element :=
  mkElement (classList el) value.

(** [querySelectorAll(selector).forEach(el => el.style.display = value)]
    for a selector that is a list of classes. *)
Definition forEach_display (classes : list string) (value : string)
    (document : list element) : list element :=
  map (fun el => if existsb (fun class => matches class el) classes
                 then set_display value el else el) document.

Definition model_rows : list string :=
  ["param-linear"; "param-biolek"; "param-joglekar"; "param-vteam"; "param-mms";
   "param-yakopcic"].

Definition updateModelControls (m : string) (document : list element) : list element :=
  let document := forEach_display model_rows "none" document in
  forEach_display ["param-" ++ m] "flex" document.

(** The model types [runSimulation] knows. *)
Definition model_types : list string :=
  ["linear"; "biolek"; "joglekar"; "vteam"; "mms"; "yakopcic"].

End Controls.

(** ** One run of the simulator *)

(** [runSimulation] on binary64: the values [parseFloat] has read from the
    controls, the object the [switch] builds, the time vector, and what the
    [try] block ends with.  Plotting is not part of the model: the status
    is that of a run whose plot succeeds. *)
Module Run.

Local Open Scope float_scope.

(** [Math.floor]. *)
Definition Math_floor (x : float) : float :=
  match Prim2SF x with
  | S754_finite s m e =>
      if (0 <=? e)%Z then x
      else
        let n := ((if s then Zneg m else Zpos m) / 2 ^ (- e))%Z in
        if (n =? 0)%Z then 0 else F64Math.of_Z n
  | _ => x
  end.

(** [ToLength]: NaN and what is not positive give 0, the rest is truncated
    and capped at [2^53 - 1]. *)
Definition ToLength (x : float) : Z :=
  match Prim2SF x with
  | S754_finite false m e =>
      Z.min (2 ^ 53 - 1)
            (if (0 <=? e)%Z then Zpos m * 2 ^ e else Zpos m / 2 ^ (- e))
  | S754_infinity false => 2 ^ 53 - 1
  | _ => 0
  end.

(** [Array.from({ length }, (_, i) => mapFn i)]: a length above [2^32 - 1]
    is a [RangeError]. *)
Definition Array_from (length : float) (mapFn : float -> float) : option (list float) :=
  let len := ToLength length in
  if (len <=? 2 ^ 32 - 1)%Z then
    Some (map (fun i => mapFn (F64Math.of_Z (Z.of_nat i))) (seq 0 (Z.to_nat len)))
  else None.

Record controls := mkControls {
  modelType : string; waveform : string;
  frequency : float; amplitude : float;
  mu_v : float; D : float; R_ON : float; R_OFF : float;
  U_ON : float; U_OFF : float; tau : float; temperature : float;
  k_off : float; k_on : float; alpha_off : float; alpha_on : float;
  w_off : float; w_on : float; a_off : float; a_on : float; w_c : float;
  u_off : float; u_on : float;
  p : float;
  A_p : float; A_n : float; U_p : float; U_n : float;
  alpha_p : float; alpha_n : float; x_p : float; x_n : float;
  a1 : float; a2 : float; b : float; x_on : float;
  duration_us : float; timeStep_us : float
}.

Inductive status :=
  | Simulation_complete (numPoints : float) (V_seq I_mem : list float)
  | Simulation_error.

Section Math.
Context {L : MathLib F64}.
Local Existing Instance F64.

(** The [switch]: [None] is the [undefined] a model type without a case
    leaves in [memristor]. *)
Definition memristor_of (c : controls) : option Memristor :=
  let modelType := modelType c in
  if String.eqb modelType "biolek" then
    Some (Biolek (BiolekMemristor.constructor (mu_v c) (D c) (R_ON c) (R_OFF c) None (p c)))
  else if String.eqb modelType "joglekar" then
    Some (Joglekar (JoglekarMemristor.constructor (mu_v c) (D c) (R_ON c) (R_OFF c) None (p c)))
  else if String.eqb modelType "linear" then
    Some (LinearIonDrift
            (LinearIonDriftMemristor.constructor (mu_v c) (D c) (R_ON c) (R_OFF c) None))
  else if String.eqb modelType "vteam" then
    Some (VTEAM (VTEAMMemristor.constructor (k_off c) (k_on c) (alpha_off c) (alpha_on c)
                   (w_off c) (w_on c) None (a_off c) (a_on c) (w_c c) (u_off c) (u_on c)
                   (R_ON c) (R_OFF c)))
  else if String.eqb modelType "mms" then
    Some (MMS (MMSMemristor.constructor (R_ON c) (R_OFF c) (U_ON c) (U_OFF c) (tau c)
                 (temperature c) ($0)%num))
  else if String.eqb modelType "yakopcic" then
    Some (Yakopcic (YakopcicMemristor.constructor (A_p c) (A_n c) (U_p c) (U_n c)
                      (alpha_p c) (alpha_n c) (x_p c) (x_n c) (a1 c) (a2 c) (b c)
                      ($0.11)%num (x_on c)))
  else None.

Definition duration (c : controls) : float := (duration_us c * $1e-6)%num.
Definition dt (c : controls) : float := (timeStep_us c * $1e-6)%num.
Definition numPoints (c : controls) : float := Math_floor (duration c / dt c).

Definition runSimulation (c : controls) : status :=
  let memristor := memristor_of c in
  match Array_from (numPoints c) (fun i => i * dt c) with
  | None => Simulation_error
  | Some t =>
      let V_seq := generateWaveform (waveform c) t (frequency c) (amplitude c) in
      match memristor, V_seq with
      | Some memristor, _ =>
          Simulation_complete (numPoints c) V_seq (simulateMemristor memristor V_seq (dt c))
      | None, [] => Simulation_complete (numPoints c) [] []
      | None, _ :: _ => Simulation_error
      end
  end.

End Math.

End Run.

(** * Properties *)

(** ** The simulation driver, for every model and every arithmetic *)

Section DriverProperties.
Context {N : Number} {T : Type} {Model : MemristorModel T}.

Lemma simulateLoop_acc (V_seq : list num) (dt : num) (memristor : T) (I_mem : list num) :
  fold_left (simulateStep dt) V_seq (memristor, I_mem)
  = (fst (simulateLoop memristor V_seq dt), I_mem ++ snd (simulateLoop memristor V_seq dt)).
Proof.
  unfold simulateLoop.
  revert memristor I_mem.
  induction V_seq as [|V rest IH]; intros memristor I_mem; simpl.
  - now rewrite app_nil_r.
  - rewrite IH. rewrite (IH _ [_]). simpl. now rewrite <- app_assoc.
Qed.

Lemma simulateMemristor_nil (memristor : T) (dt : num) :
  simulateMemristor memristor [] dt = [].
Proof. reflexivity. Qed.

Lemma simulateMemristor_cons (memristor : T) (V : num) (rest : list num) (dt : num) :
  simulateMemristor memristor (V :: rest) dt
  = getCurrent memristor V :: simulateMemristor (updateState memristor V dt) rest dt.
Proof.
  unfold simulateMemristor, simulateLoop. simpl.
  now rewrite simulateLoop_acc.
Qed.

Lemma simulateLoop_final (memristor : T) (V_seq : list num) (dt : num) :
  fst (simulateLoop memristor V_seq dt) = advanced memristor V_seq dt.
Proof.
  revert memristor.
  induction V_seq as [|V rest IH]; intros memristor; [reflexivity|].
  unfold simulateLoop in *. simpl. rewrite simulateLoop_acc. simpl. apply IH.
Qed.

Lemma simulateMemristor_nth (V_seq : list num) (dt : num) :
  forall (memristor : T) (k : nat) (V : num),
    nth_error V_seq k = Some V ->
    nth_error (simulateMemristor memristor V_seq dt) k
    = Some (getCurrent (advanced memristor (firstn k V_seq) dt) V).
Proof.
  induction V_seq as [|V0 rest IH]; intros memristor k V Hk.
  - destruct k; discriminate.
  - rewrite simulateMemristor_cons. destruct k as [|k]; simpl in *.
    + now inversion Hk.
    + now apply IH.
Qed.

(** C3. Step ordering.  The returned array starts with the current read on
    the object as it was passed in, and continues with the run on the object
    advanced by the same voltage; so the entry at every index [k] is the
    current of the [k]-th voltage on the object after exactly [k] calls of
    [updateState], and the object is left advanced by the whole sequence. *)
Theorem simulate_reads_current_before_update
    (memristor : T) (V_seq : list num) (dt : num) :
  (forall V rest, V_seq = V :: rest ->
     simulateMemristor memristor V_seq dt
     = getCurrent memristor V :: simulateMemristor (updateState memristor V dt) rest dt)
  /\ (forall k V, nth_error V_seq k = Some V ->
        nth_error (simulateMemristor memristor V_seq dt) k
        = Some (getCurrent (advanced memristor (firstn k V_seq) dt) V))
  /\ fst (simulateLoop memristor V_seq dt) = advanced memristor V_seq dt.
Proof.
  split; [|split].
  - intros V rest ->. apply simulateMemristor_cons.
  - intros k V Hk. now apply simulateMemristor_nth.
  - apply simulateLoop_final.
Qed.

(** C8. Length invariance: one current per voltage. *)
Theorem simulate_length (memristor : T) (V_seq : list num) (dt : num) :
  List.length (simulateMemristor memristor V_seq dt) = List.length V_seq.
Proof.
  revert memristor.
  induction V_seq as [|V rest IH]; intros memristor; [reflexivity|].
  rewrite simulateMemristor_cons. simpl. now rewrite IH.
Qed.

(** The store after a write. *)
Lemma nth_error_write_same (s : store) (a : nat) (o o' : T) :
  nth_error s a = Some o -> nth_error (write s a o') a = Some o'.
Proof.
  revert a. induction s as [|x rest IH]; intros [|a] H; simpl in *;
    try discriminate; auto.
Qed.

Lemma write_write (s : store) (a : nat) (o o' : T) :
  write (write s a o) a o' = write s a o'.
Proof.
  revert a. induction s as [|x rest IH]; intros [|a]; simpl; auto.
  now rewrite IH.
Qed.

Lemma write_same (s : store) (a : nat) (o : T) :
  nth_error s a = Some o -> write s a o = s.
Proof.
  revert a. induction s as [|x rest IH]; intros [|a] H; simpl in *;
    try discriminate; auto.
  - now inversion H.
  - now rewrite IH.
Qed.

Lemma write_new (s : store) (o o' : T) :
  write (s ++ [o]) (List.length s) o' = s ++ [o'].
Proof. induction s as [|x rest IH]; simpl; auto. now rewrite IH. Qed.

Lemma nth_error_new (s : store) (o : T) :
  nth_error (s ++ [o]) (List.length s) = Some o.
Proof. induction s as [|x rest IH]; simpl; auto. Qed.

(** The loop on the store is the loop on the object at the address: it
    returns the same array, leaves that object advanced, and touches no
    other. *)
Lemma simulateMemristorAt_acc (V_seq : list num) (dt : num) (a : nat) :
  forall (s : store) (o : T) (I_mem : list num),
    nth_error s a = Some o ->
    fold_left (simulateStepAt a dt) V_seq (s, I_mem)
    = (write s a (advanced o V_seq dt), I_mem ++ simulateMemristor o V_seq dt).
Proof.
  induction V_seq as [|V rest IH]; intros s o I_mem Ha.
  - simpl. rewrite write_same by assumption. now rewrite app_nil_r.
  - assert (E : simulateStepAt a dt (s, I_mem) V
                = (write s a (updateState o V dt), I_mem ++ [getCurrent o V]))
      by (unfold simulateStepAt; now rewrite Ha).
    change (fold_left (simulateStepAt a dt) (V :: rest) (s, I_mem))
      with (fold_left (simulateStepAt a dt) rest (simulateStepAt a dt (s, I_mem) V)).
    rewrite E.
    rewrite (IH _ (updateState o V dt)) by (eapply nth_error_write_same; eauto).
    rewrite write_write, simulateMemristor_cons. simpl advanced.
    now rewrite <- app_assoc.
Qed.

Lemma run_spec (s : store) (o : T) (V_seq : list num) (dt : num) :
  run s o V_seq dt = (s ++ [advanced o V_seq dt], simulateMemristor o V_seq dt).
Proof.
  unfold run, new, simulateMemristorAt.
  rewrite (simulateMemristorAt_acc V_seq dt _ _ o) by apply nth_error_new.
  now rewrite write_new.
Qed.

(** The object a run works on is mutated in place: after the run the store
    holds it advanced by the whole voltage sequence. *)
Lemma run_mutates_in_place (s : store) (o : T) (V_seq : list num) (dt : num) :
  nth_error (fst (run s o V_seq dt)) (List.length s) = Some (advanced o V_seq dt).
Proof. rewrite run_spec. simpl. apply nth_error_new. Qed.

(** C9. Determinism: a run on a newly constructed object returns an array
    that depends on the object as constructed, the voltage sequence and the
    step, and on nothing else: not on the store it runs in, that is, not on
    what earlier runs did.  Two runs that agree on the three return the same
    array, value for value, and neither touches an object of the other. *)
Theorem simulate_deterministic
    (s1 s2 : store) (m1 m2 : T) (V_seq1 V_seq2 : list num) (dt1 dt2 : num) :
  m1 = m2 -> V_seq1 = V_seq2 -> dt1 = dt2 ->
  snd (run s1 m1 V_seq1 dt1) = snd (run s2 m2 V_seq2 dt2)
  /\ snd (run s1 m1 V_seq1 dt1) = simulateMemristor m1 V_seq1 dt1
  /\ firstn (List.length s1) (fst (run s1 m1 V_seq1 dt1)) = s1.
Proof.
  intros Hm HV Hdt. subst m2 V_seq2 dt2.
  rewrite !run_spec. simpl.
  repeat split.
  rewrite firstn_app, Nat.sub_diag, firstn_all. simpl. apply app_nil_r.
Qed.

End DriverProperties.

(** ** The waveform generator, for every arithmetic *)

Section WaveformProperties.
Context {N : Number} {L : MathLib N}.

(** C6. Unknown waveform fallback: a name that is none of the four cases
    of the switch yields the sine wave. *)
Theorem generateWaveform_unknown_is_sine
    (type : string) (t : list num) (frequency amplitude : num) :
  type <> "sine"%string -> type <> "square"%string ->
  type <> "triangle"%string -> type <> "sawtooth"%string ->
  generateWaveform type t frequency amplitude
  = generateWaveform "sine" t frequency amplitude.
Proof.
  intros H1 H2 H3 H4. unfold generateWaveform.
  apply String.eqb_neq in H1, H2, H3, H4.
  now rewrite H1, H2, H3, H4.
Qed.

End WaveformProperties.

(** ** Binary64: order and special values *)

Module F64Facts.
Import F64Spec.
Local Open Scope float_scope.

Lemma lexlt_irrefl (a b : Z * Z * Z) : a = b -> ~ lexlt a b.
Proof. intros ->. destruct b as [[b1 b2] b3]. simpl. lia. Qed.

Lemma SFcompare_key (x y : spec_float) :
  x <> S754_nan -> y <> S754_nan ->
  match SFcompare x y with
  | Some Lt => lexlt (key x) (key y)
  | Some Eq => key x = key y
  | Some Gt => lexlt (key y) (key x)
  | None => False
  end.
Proof.
  intros Hx Hy.
  destruct x as [sx|sx| |sx mx ex], y as [sy|sy| |sy my ey];
    try congruence; simpl;
    try (destruct sx); try (destruct sy); simpl; try lia; try reflexivity.
  all: change (Pos.compare_cont Eq mx my) with (Pos.compare mx my).
  all: destruct (Z.compare_spec ex ey); destruct (Pos.compare_spec mx my);
    simpl; subst; try reflexivity; lia.
Qed.

Lemma is_nan_Prim2SF (x : float) : is_nan x = true <-> Prim2SF x = S754_nan.
Proof.
  unfold is_nan. rewrite eqb_spec. unfold SFeqb.
  destruct (Prim2SF x) as [s|s| |s m e] eqn:E.
  - simpl. split; [discriminate|congruence].
  - destruct s; simpl; (split; [discriminate|congruence]).
  - simpl. split; intros; reflexivity.
  - assert (H := SFcompare_key (S754_finite s m e) (S754_finite s m e)
                  ltac:(discriminate) ltac:(discriminate)).
    destruct (SFcompare _ _) as [[]|]; simpl.
    + split; [discriminate|congruence].
    + now apply lexlt_irrefl in H.
    + now apply lexlt_irrefl in H.
    + contradiction.
Qed.

Lemma compare_key (x y : float) :
  is_nan x = false -> is_nan y = false ->
  match SFcompare (Prim2SF x) (Prim2SF y) with
  | Some Lt => lexlt (fkey x) (fkey y)
  | Some Eq => fkey x = fkey y
  | Some Gt => lexlt (fkey y) (fkey x)
  | None => False
  end.
Proof.
  intros Nx Ny. apply SFcompare_key.
  - intros E. apply is_nan_Prim2SF in E. congruence.
  - intros E. apply is_nan_Prim2SF in E. congruence.
Qed.

Lemma compare_nan (x y : float) :
  is_nan x = true \/ is_nan y = true -> SFcompare (Prim2SF x) (Prim2SF y) = None.
Proof.
  intros [H|H]; apply is_nan_Prim2SF in H; rewrite H; [reflexivity|].
  now destruct (Prim2SF x).
Qed.

Ltac key_lia :=
  unfold fkey in *;
  repeat match goal with
         | H : context [key ?x] |- _ => destruct (key x) as [[? ?] ?]
         | |- context [key ?x] => destruct (key x) as [[? ?] ?]
         end;
  unfold lexlt, lexle in *;
  repeat match goal with H : (_, _) = (_, _) |- _ => inversion H; clear H end;
  subst; first [ lia | solve [repeat (f_equal; try lia)] | idtac ].

(** What each comparison says about its operands. *)
Lemma ltb_cases (x y : float) :
  if x <? y
  then is_nan x = false /\ is_nan y = false /\ lexlt (fkey x) (fkey y)
  else is_nan x = true \/ is_nan y = true \/ lexle (fkey y) (fkey x).
Proof.
  rewrite ltb_spec. unfold SFltb.
  destruct (is_nan x) eqn:Nx; [rewrite compare_nan by auto; auto|].
  destruct (is_nan y) eqn:Ny; [rewrite compare_nan by auto; auto|].
  assert (H := compare_key x y Nx Ny).
  destruct (SFcompare _ _) as [[]|]; try contradiction; auto.
  - right. right. rewrite H. key_lia.
  - right. right. key_lia.
Qed.

Lemma leb_cases (x y : float) :
  if x <=? y
  then is_nan x = false /\ is_nan y = false /\ lexle (fkey x) (fkey y)
  else is_nan x = true \/ is_nan y = true \/ lexlt (fkey y) (fkey x).
Proof.
  rewrite leb_spec. unfold SFleb.
  destruct (is_nan x) eqn:Nx; [rewrite compare_nan by auto; auto|].
  destruct (is_nan y) eqn:Ny; [rewrite compare_nan by auto; auto|].
  assert (H := compare_key x y Nx Ny).
  destruct (SFcompare _ _) as [[]|]; try contradiction; auto.
  - repeat split; auto. rewrite H. key_lia.
  - repeat split; auto. key_lia.
Qed.

Lemma eqb_cases (x y : float) :
  if x =? y
  then is_nan x = false /\ is_nan y = false /\ fkey x = fkey y
  else is_nan x = true \/ is_nan y = true \/ fkey x <> fkey y.
Proof.
  rewrite eqb_spec. unfold SFeqb.
  destruct (is_nan x) eqn:Nx; [rewrite compare_nan by auto; auto|].
  destruct (is_nan y) eqn:Ny; [rewrite compare_nan by auto; auto|].
  assert (H := compare_key x y Nx Ny).
  destruct (SFcompare _ _) as [[]|]; try contradiction; auto.
  - right. right. intros E. rewrite E in H. key_lia.
  - right. right. intros E. rewrite E in H. key_lia.
Qed.

Lemma leb_intro (x y : float) :
  is_nan x = false -> is_nan y = false -> lexle (fkey x) (fkey y) -> (x <=? y) = true.
Proof.
  intros Nx Ny K. assert (C := leb_cases x y).
  destruct (x <=? y); [reflexivity|].
  destruct C as [C|[C|C]]; try congruence. key_lia.
Qed.

Lemma eqb_intro (x y : float) :
  is_nan x = false -> is_nan y = false -> fkey x = fkey y -> (x =? y) = true.
Proof.
  intros Nx Ny K. assert (C := eqb_cases x y).
  destruct (x =? y); [reflexivity|].
  destruct C as [C|[C|C]]; congruence.
Qed.

(** Every comparison among the hypotheses becomes a fact about keys; a
    comparison to prove is reduced to one. *)
Ltac cmp_facts :=
  repeat match goal with
         | H : (?x <? ?y) = _ |- _ =>
             let C := fresh "C" in assert (C := ltb_cases x y); rewrite H in C; clear H
         | H : (?x <=? ?y) = _ |- _ =>
             let C := fresh "C" in assert (C := leb_cases x y); rewrite H in C; clear H
         | H : (?x =? ?y) = _ |- _ =>
             let C := fresh "C" in assert (C := eqb_cases x y); rewrite H in C; clear H
         | H : is_nan nan = false |- _ => discriminate H
         | H : (_ || _)%bool = true |- _ => apply orb_true_iff in H
         | H : (_ || _)%bool = false |- _ => apply orb_false_iff in H
         | H : _ /\ _ |- _ => destruct H
         | H : _ \/ _ |- _ => destruct H
         end.

Ltac float_order :=
  intros; cmp_facts; try congruence;
  repeat match goal with
         | |- _ /\ _ => split
         | |- (_ <=? _) = true => apply leb_intro
         | |- (_ =? _) = true => apply eqb_intro
         end;
  try congruence; try reflexivity; try key_lia.

Ltac split_ifs :=
  repeat match goal with
         | |- context [if ?b then _ else _] => destruct b eqn:?
         end.

(** The clamp [Math.max(lo, Math.min(s, hi))]. *)
Lemma max_min_clamp (lo hi s : float) :
  (lo <=? hi) = true ->
  (is_nan s = false ->
     (lo <=? F64.max lo (F64.min s hi)) = true /\ (F64.max lo (F64.min s hi) <=? hi) = true)
  /\ ((s <? lo) = true -> (F64.max lo (F64.min s hi) =? lo) = true)
  /\ ((hi <? s) = true -> (F64.max lo (F64.min s hi) =? hi) = true)
  /\ ((lo <=? s) = true -> (s <=? hi) = true -> (F64.max lo (F64.min s hi) =? s) = true)
  /\ (is_nan s = true -> is_nan (F64.max lo (F64.min s hi)) = true).
Proof.
  intros Hd. unfold F64.min. split_ifs; unfold F64.max; split_ifs.
  all: repeat split.
  all: float_order.
Qed.

(** The clamp [Math.min(hi, Math.max(lo, s))]. *)
Lemma min_max_clamp (lo hi s : float) :
  (lo <=? hi) = true ->
  (is_nan s = false ->
     (lo <=? F64.min hi (F64.max lo s)) = true /\ (F64.min hi (F64.max lo s) <=? hi) = true)
  /\ ((s <? lo) = true -> (F64.min hi (F64.max lo s) =? lo) = true)
  /\ ((hi <? s) = true -> (F64.min hi (F64.max lo s) =? hi) = true)
  /\ ((lo <=? s) = true -> (s <=? hi) = true -> (F64.min hi (F64.max lo s) =? s) = true)
  /\ (is_nan s = true -> is_nan (F64.min hi (F64.max lo s)) = true).
Proof.
  intros Hd. unfold F64.max. split_ifs; unfold F64.min; split_ifs.
  all: repeat split.
  all: float_order.
Qed.

(** The literals of the source, read by [F64.of_Q], are the doubles the
    float notation of Rocq reads. *)
Lemma of_Q_literals :
  F64.of_Q 1e-9 = 1e-9 /\ F64.of_Q 1e-8 = 1e-8 /\ F64.of_Q 16e3 = 16000
  /\ F64.of_Q 5e-4 = 5e-4 /\ F64.of_Q 3e-9 = 3e-9 /\ F64.of_Q 0.8 = 0.8
  /\ F64.of_Q 0.2 = 0.2 /\ F64.of_Q 0.12 = 0.12 /\ F64.of_Q 0.5 = 0.5
  /\ F64.of_Q 2.5e3 = 2500 /\ F64.of_Q 0.27 = 0.27 /\ F64.of_Q 1e-4 = 1e-4
  /\ F64.of_Q 298.5 = 298.5 /\ F64.of_Q 1.602176634e-19 = 1.602176634e-19
  /\ F64.of_Q 1.380649e-23 = 1.380649e-23 /\ F64.of_Q 0.3 = 0.3
  /\ F64.of_Q 0.17 = 0.17 /\ F64.of_Q 0.05 = 0.05 /\ F64.of_Q 0.11 = 0.11
  /\ F64.of_Q 5e-324 = 0x1p-1074.
Proof. vm_compute. repeat split; reflexivity. Qed.

(** Zeros, finite numbers and numbers other than zero, on the
    specification side. *)
Lemma is_zero_Prim2SF (x : float) :
  is_zero x = true <-> exists s, Prim2SF x = S754_zero s.
Proof.
  unfold is_zero. rewrite eqb_spec.
  change (Prim2SF zero) with (S754_zero false). unfold SFeqb.
  destruct (Prim2SF x) as [s|s| |s m e]; simpl.
  - split; eauto.
  - destruct s; (split; [discriminate|intros [? ?]; discriminate]).
  - split; [discriminate|intros [? ?]; discriminate].
  - destruct s; (split; [discriminate|intros [? ?]; discriminate]).
Qed.

Lemma nonzero_number_Prim2SF (x : float) :
  nonzero_number x = true ->
  (exists s, Prim2SF x = S754_infinity s) \/ (exists s m e, Prim2SF x = S754_finite s m e).
Proof.
  unfold nonzero_number. intros H. apply andb_true_iff in H. destruct H as [Hn Hz].
  apply negb_true_iff in Hn, Hz.
  destruct (Prim2SF x) as [s|s| |s m e] eqn:E; eauto 6.
  - assert (Z : is_zero x = true) by (apply is_zero_Prim2SF; eauto).
    change ((x =? 0) = true) in Z. congruence.
  - apply is_nan_Prim2SF in E. congruence.
Qed.

Lemma is_finite_Prim2SF (x : float) :
  is_finite x = true ->
  (exists s, Prim2SF x = S754_zero s) \/ (exists s m e, Prim2SF x = S754_finite s m e).
Proof.
  unfold is_finite, is_infinity. intros H.
  apply negb_true_iff, orb_false_iff in H. destruct H as [Hn Hi].
  rewrite eqb_spec, abs_spec in Hi.
  change (Prim2SF infinity) with (S754_infinity false) in Hi.
  destruct (Prim2SF x) as [s|s| |s m e] eqn:E; eauto 6.
  - discriminate Hi.
  - apply is_nan_Prim2SF in E. congruence.
Qed.

Lemma div_zero_l (z x : float) :
  is_zero z = true -> nonzero_number x = true -> is_zero (z / x) = true.
Proof.
  intros Hz Hx. apply is_zero_Prim2SF in Hz. destruct Hz as [sz Hz].
  apply is_zero_Prim2SF. rewrite div_spec, Hz.
  destruct (nonzero_number_Prim2SF x Hx) as [[s E]|(s & m & e & E)]; rewrite E; simpl; eauto.
Qed.

Lemma mul_zero_r (x z : float) :
  is_finite x = true -> is_zero z = true -> is_zero (x * z) = true.
Proof.
  intros Hx Hz. apply is_zero_Prim2SF in Hz. destruct Hz as [sz Hz].
  apply is_zero_Prim2SF. rewrite mul_spec, Hz.
  destruct (is_finite_Prim2SF x Hx) as [[s E]|(s & m & e & E)]; rewrite E; simpl; eauto.
Qed.

Lemma mul_zero_l (z x : float) :
  is_zero z = true -> is_finite x = true -> is_zero (z * x) = true.
Proof.
  intros Hz Hx. apply is_zero_Prim2SF in Hz. destruct Hz as [sz Hz].
  apply is_zero_Prim2SF. rewrite mul_spec, Hz.
  destruct (is_finite_Prim2SF x Hx) as [[s E]|(s & m & e & E)]; rewrite E; simpl; eauto.
Qed.

Lemma is_zero_cases (z : float) : is_zero z = true -> z = 0 \/ z = -0.
Proof.
  intros Hz. apply is_zero_Prim2SF in Hz. destruct Hz as [[|] Hz];
    [right|left]; apply Prim2SF_inj; rewrite Hz; reflexivity.
Qed.

(** NaN is one value; infinity absorbs a finite subtrahend; infinity times
    a product with zero is NaN, whatever the other factor. *)
Lemma nan_unique (x : float) : is_nan x = true -> x = nan.
Proof. intros H. apply is_nan_Prim2SF in H. apply Prim2SF_inj. now rewrite H. Qed.

Lemma infinity_sub_finite (e : float) : is_finite e = true -> infinity - e = infinity.
Proof.
  intros H. apply Prim2SF_inj. rewrite sub_spec.
  change (Prim2SF infinity) with (S754_infinity false).
  destruct (is_finite_Prim2SF e H) as [[s E]|(s & m & e' & E)]; rewrite E; reflexivity.
Qed.

Lemma infinity_mul_zero (e : float) : infinity * (e * 0) = nan.
Proof.
  apply nan_unique, is_nan_Prim2SF. rewrite !mul_spec.
  change (Prim2SF infinity) with (S754_infinity false).
  change (Prim2SF 0) with (S754_zero false).
  destruct (Prim2SF e) as [s|s| |s m e']; reflexivity.
Qed.

End F64Facts.

(** ** The models, for every arithmetic *)

Section ModelProperties.
Context {N : Number} {L : MathLib N}.

(** [updateState] stores the clamped Euler step and leaves the bounds of
    the domain as they are. *)
Lemma updateState_state (m : Memristor) (V dt : num) :
  state (updateState m V dt) = clamp m (eulerStep m V dt).
Proof. destruct m; reflexivity. Qed.

Lemma updateState_lo (m : Memristor) (V dt : num) : lo (updateState m V dt) = lo m.
Proof. destruct m; reflexivity. Qed.

Lemma updateState_hi (m : Memristor) (V dt : num) : hi (updateState m V dt) = hi m.
Proof. destruct m; reflexivity. Qed.

(** The state [updateState] stores is the class's clamp of the Euler step
    taken from the state before the call. *)
Lemma updateState_stores_clamped_step (m : Memristor) (V dt : num) :
  state (updateState m V dt) = clamp m (eulerStep m V dt)
  /\ lo (updateState m V dt) = lo m /\ hi (updateState m V dt) = hi m.
Proof. destruct m; repeat split. Qed.

End ModelProperties.

(** ** Runs in pieces, and what a run leaves alone *)

Section RunProperties.
Context {N : Number} {T : Type} {Model : MemristorModel T}.

Lemma advanced_cons (memristor : T) (V : num) (rest : list num) (dt : num) :
  advanced memristor (V :: rest) dt = advanced (updateState memristor V dt) rest dt.
Proof. reflexivity. Qed.

(** A run can be cut anywhere: the currents of a sequence are the currents
    of its first part followed by those of the rest on the object the first
    part has left, and the object ends as the two runs in a row leave it. *)
Theorem simulateMemristor_app (memristor : T) (V1 V2 : list num) (dt : num) :
  simulateMemristor memristor (V1 ++ V2) dt
  = simulateMemristor memristor V1 dt
    ++ simulateMemristor (advanced memristor V1 dt) V2 dt
  /\ advanced memristor (V1 ++ V2) dt
     = advanced (advanced memristor V1 dt) V2 dt.
Proof.
  split; [|apply fold_left_app].
  revert memristor. induction V1 as [|V rest IH]; intros memristor; [reflexivity|].
  simpl app. rewrite !simulateMemristor_cons, IH. reflexivity.
Qed.

(** While every step leaves the object as it was, the run is that of a
    fixed two-terminal element. *)
Lemma simulateMemristor_fixed (memristor : T) (V_seq : list num) (dt : num) :
  Forall (fun V => updateState memristor V dt = memristor) V_seq ->
  advanced memristor V_seq dt = memristor
  /\ simulateMemristor memristor V_seq dt = map (getCurrent memristor) V_seq.
Proof.
  induction 1 as [|V rest HV _ [IHa IHs]]; [split; reflexivity|].
  rewrite simulateMemristor_cons, advanced_cons, HV, IHa, IHs. split; reflexivity.
Qed.

End RunProperties.

Section ObjectProperties.
Context {N : Number} {L : MathLib N}.

Lemma updateState_keeps_parameters (m : Memristor) (V dt s : num) :
  recompute (with_state (updateState m V dt) s) = recompute (with_state m s).
Proof. destruct m; reflexivity. Qed.

(** The stored readouts never drift from the state: at every reachable
    object a further [_updateMemristance] changes nothing. *)
Lemma recompute_reachable (m : Memristor) :
  reachable m -> recompute m = m.
Proof.
  intros Hr.
  assert (Hlast : constructed m \/ exists m0 V dt, m = updateState m0 V dt)
    by (destruct Hr; eauto).
  destruct Hlast as [Hc | (m0 & V & dt & ->)].
  - destruct Hc; reflexivity.
  - destruct m0; reflexivity.
Qed.

Lemma with_state_state (m : Memristor) : with_state m (state m) = m.
Proof. destruct m as [[] | [] | [] | [] | [] | []]; reflexivity. Qed.

Lemma updateState_unfold (m : Memristor) (V dt : num) :
  updateState m V dt = recompute (with_state m (clamp m (eulerStep m V dt))).
Proof. destruct m; reflexivity. Qed.

(** A step that stores the state it found leaves the whole object as it
    was. *)
Lemma updateState_fixed (m : Memristor) (V dt : num) :
  reachable m -> clamp m (eulerStep m V dt) = state m -> updateState m V dt = m.
Proof.
  intros Hr E. rewrite updateState_unfold, E, with_state_state.
  now apply recompute_reachable.
Qed.

(** After any run the object is the original with the final state stored
    and the readouts recomputed from it: no parameter has changed, and [M]
    and [W] are those of the final state. *)
Theorem advanced_changes_state_only (m : Memristor) (V_seq : list num) (dt : num) :
  reachable m ->
  advanced m V_seq dt = recompute (with_state m (state (advanced m V_seq dt))).
Proof.
  revert m. induction V_seq as [|V rest IH]; intros m Hr.
  - simpl. now rewrite with_state_state, recompute_reachable.
  - rewrite advanced_cons.
    rewrite (IH (updateState m V dt)) at 1 by now apply reach_update.
    apply updateState_keeps_parameters.
Qed.

End ObjectProperties.

(** ** The models on binary64 *)

Section Binary64.
Import F64Spec F64Facts.
Local Existing Instance F64.
Local Open Scope float_scope.

Section AnyMath.
Context {L : MathLib F64}.

(** C1. Domain containment, as the code has it.  When the bounds of the
    domain are ordered, [updateState] leaves the state inside the closed
    domain whenever the Euler step is a number: a step below the domain
    gives the lower bound, a step above it the upper bound, a step inside it
    is kept.  A step that is NaN is not clamped: the state becomes NaN. *)
Theorem updateState_clamps_state (m : Memristor) (V dt : float) :
  (lo m <=? hi m) = true ->
  (is_nan (eulerStep m V dt) = false -> inDomain (updateState m V dt) = true)
  /\ ((eulerStep m V dt <? lo m) = true -> (state (updateState m V dt) =? lo m) = true)
  /\ ((hi m <? eulerStep m V dt) = true -> (state (updateState m V dt) =? hi m) = true)
  /\ ((lo m <=? eulerStep m V dt) = true -> (eulerStep m V dt <=? hi m) = true ->
      (state (updateState m V dt) =? eulerStep m V dt) = true)
  /\ (is_nan (eulerStep m V dt) = true -> is_nan (state (updateState m V dt)) = true).
Proof.
  intros Hd. unfold inDomain.
  rewrite updateState_lo, updateState_hi, updateState_state.
  assert (H : (is_nan (eulerStep m V dt) = false ->
               (lo m <=? clamp m (eulerStep m V dt)) = true
               /\ (clamp m (eulerStep m V dt) <=? hi m) = true)
              /\ ((eulerStep m V dt <? lo m) = true ->
                  (clamp m (eulerStep m V dt) =? lo m) = true)
              /\ ((hi m <? eulerStep m V dt) = true ->
                  (clamp m (eulerStep m V dt) =? hi m) = true)
              /\ ((lo m <=? eulerStep m V dt) = true -> (eulerStep m V dt <=? hi m) = true ->
                  (clamp m (eulerStep m V dt) =? eulerStep m V dt) = true)
              /\ (is_nan (eulerStep m V dt) = true ->
                  is_nan (clamp m (eulerStep m V dt)) = true)).
  { destruct m; first [ now apply max_min_clamp | now apply min_max_clamp ]. }
  destruct H as (H1 & H2 & H3 & H4 & H5).
  repeat split; auto.
  intros Hn. destruct (H1 Hn) as [Ha Hb].
  change (@leb F64) with PrimFloat.leb. now rewrite Ha, Hb.
Qed.

(** C10. The I-V curve is pinched at the origin: when the quantities the
    current is computed from are well-formed, the current at zero voltage is
    zero.  The Yakopcic current goes through [Math.sinh], which ECMAScript
    requires to return a zero for a zero. *)
Theorem getCurrent_zero_voltage (m : Memristor) :
  (forall z, is_zero z = true -> is_zero (Math_sinh z) = true) ->
  current_defined L m = true ->
  is_zero (getCurrent m ($0)%num) = true.
Proof.
  intros Hsinh Hm.
  assert (Z0 : is_zero (@lit F64 0%Q) = true) by reflexivity.
  destruct m as [m|m|m|m|m|m]; simpl in *.
  - now apply div_zero_l.
  - now apply div_zero_l.
  - now apply div_zero_l.
  - apply andb_true_iff in Hm. destruct Hm as [HR He].
    unfold VTEAMMemristor.getCurrent. cbv zeta.
    apply mul_zero_l; [now apply div_zero_l | exact He].
  - unfold MMSMemristor.getCurrent. now apply mul_zero_l.
  - apply andb_true_iff in Hm. destruct Hm as [Ha Hb].
    unfold YakopcicMemristor.getCurrent.
    change ((@lit F64 0%Q >=? @lit F64 0%Q)%num) with true. cbv iota.
    apply mul_zero_r; [exact Ha|]. apply Hsinh. now apply mul_zero_r.
Qed.

(** Default parameters and finite voltages do not keep the state a number
    either.  Whenever [Math.exp] overflows at 1000 and is finite at 0.5, the
    default Yakopcic model driven at 1000 V has an infinite rate; the first
    step saturates the state at 1, where the window function is
    [exp(...) * 0], and the second step is [infinity * 0]. *)
Lemma updateState_leaves_domain_Yakopcic :
  Math_exp 1000 = infinity -> is_finite (Math_exp 0.5) = true ->
  let m := Yakopcic YakopcicMemristor.default in
  inDomain (advanced m [1000] 1e-6) = true
  /\ is_nan (state (advanced m [1000; 1000] 1e-6)) = true.
Proof.
  intros He Hf m.
  assert (E1 : advanced m [1000] 1e-6 = updateState m 1000 1e-6) by reflexivity.
  assert (E2 : advanced m [1000; 1000] 1e-6
               = updateState (updateState m 1000 1e-6) 1000 1e-6) by reflexivity.
  rewrite E1, E2. clear E1 E2.
  assert (Hg : YakopcicMemristor.g YakopcicMemristor.default 1000 = infinity).
  { unfold YakopcicMemristor.g. simpl.
    change (F64.of_Q 0.5) with 0.5. rewrite He, infinity_sub_finite by assumption.
    reflexivity. }
  assert (H1 : state (updateState m 1000 1e-6) = 1).
  { rewrite updateState_state. unfold eulerStep, m. cbv zeta. rewrite Hg. reflexivity. }
  split.
  - unfold inDomain. rewrite H1. reflexivity.
  - rewrite updateState_state.
    assert (H2 : eulerStep (updateState m 1000 1e-6) 1000 1e-6 = nan).
    { unfold m in *. simpl updateState in *.
      set (m1 := YakopcicMemristor.updateState (N := F64)
                   YakopcicMemristor.default 1000 1e-6) in *.
      change (YakopcicMemristor.x m1 = 1) in H1.
      unfold eulerStep. cbv zeta. rewrite H1.
      assert (Hg1 : YakopcicMemristor.g m1 1000 = infinity).
      { unfold YakopcicMemristor.g. simpl.
        change (F64.of_Q 0.5) with 0.5. rewrite He, infinity_sub_finite by assumption.
        reflexivity. }
      assert (Hf1 : YakopcicMemristor.f m1 1 1000 = Math_exp (- 1 * (1 - 0.3)) * 0)
        by reflexivity.
      rewrite Hg1, Hf1, infinity_mul_zero. reflexivity. }
    rewrite H2. reflexivity.
Qed.

(** *** A state that is not a number *)

Lemma add_nan_l (y : float) : nan + y = nan.
Proof.
  apply Prim2SF_inj. rewrite add_spec.
  change (Prim2SF nan) with S754_nan. now destruct (Prim2SF y).
Qed.

Lemma sub_nan_l (y : float) : nan - y = nan.
Proof.
  apply Prim2SF_inj. rewrite sub_spec.
  change (Prim2SF nan) with S754_nan. now destruct (Prim2SF y).
Qed.

Lemma sub_nan_r (x : float) : x - nan = nan.
Proof.
  apply Prim2SF_inj. rewrite sub_spec.
  change (Prim2SF nan) with S754_nan. now destruct (Prim2SF x).
Qed.

Lemma mul_nan_l (y : float) : nan * y = nan.
Proof.
  apply Prim2SF_inj. rewrite mul_spec.
  change (Prim2SF nan) with S754_nan. now destruct (Prim2SF y).
Qed.

Lemma mul_nan_r (x : float) : x * nan = nan.
Proof.
  apply Prim2SF_inj. rewrite mul_spec.
  change (Prim2SF nan) with S754_nan. now destruct (Prim2SF x).
Qed.

Lemma div_nan_l (y : float) : nan / y = nan.
Proof.
  apply Prim2SF_inj. rewrite div_spec.
  change (Prim2SF nan) with S754_nan. now destruct (Prim2SF y).
Qed.

Lemma div_nan_r (x : float) : x / nan = nan.
Proof.
  apply Prim2SF_inj. rewrite div_spec.
  change (Prim2SF nan) with S754_nan. now destruct (Prim2SF x).
Qed.

Lemma eulerStep_nan (m : Memristor) (V dt : float) :
  state m = nan -> eulerStep m V dt = nan.
Proof. intros H. destruct m; simpl in *; rewrite H; apply add_nan_l. Qed.

Lemma clamp_nan (m : Memristor) : clamp m nan = nan.
Proof.
  destruct m; simpl; unfold F64.min, F64.max; simpl;
    rewrite ?orb_true_r; reflexivity.
Qed.

Lemma updateState_nan (m : Memristor) (V dt : float) :
  state m = nan -> state (updateState m V dt) = nan.
Proof.
  intros H. rewrite updateState_state, (eulerStep_nan m V dt H). apply clamp_nan.
Qed.

Ltac nan_arith :=
  repeat first
    [ rewrite add_nan_l | rewrite sub_nan_l | rewrite sub_nan_r
    | rewrite mul_nan_l | rewrite mul_nan_r | rewrite div_nan_l | rewrite div_nan_r ].

Lemma getCurrent_nan (m : Memristor) (V : float) :
  Math_exp nan = nan -> reachable m -> state m = nan -> getCurrent m V = nan.
Proof.
  intros Hexp Hr Hs. assert (E := recompute_reachable m Hr).
  destruct m as [b | j | l | v | s | y]; simpl in *.
  - injection E as E. apply (f_equal BiolekMemristor.M) in E. simpl in E.
    unfold BiolekMemristor.getCurrent. rewrite <- E, Hs.
    change (@add F64) with PrimFloat.add. change (@mul F64) with PrimFloat.mul.
    change (@div F64) with PrimFloat.div. change (@sub F64) with PrimFloat.sub.
    now nan_arith.
  - injection E as E. apply (f_equal JoglekarMemristor.M) in E. simpl in E.
    unfold JoglekarMemristor.getCurrent. rewrite <- E, Hs.
    change (@add F64) with PrimFloat.add. change (@mul F64) with PrimFloat.mul.
    change (@div F64) with PrimFloat.div. change (@sub F64) with PrimFloat.sub.
    now nan_arith.
  - injection E as E. apply (f_equal LinearIonDriftMemristor.M) in E. simpl in E.
    unfold LinearIonDriftMemristor.getCurrent. rewrite <- E, Hs.
    change (@add F64) with PrimFloat.add. change (@mul F64) with PrimFloat.mul.
    change (@div F64) with PrimFloat.div. change (@sub F64) with PrimFloat.sub.
    now nan_arith.
  - unfold VTEAMMemristor.getCurrent. rewrite Hs.
    change (@add F64) with PrimFloat.add. change (@mul F64) with PrimFloat.mul.
    change (@div F64) with PrimFloat.div. change (@sub F64) with PrimFloat.sub.
    nan_arith. rewrite Hexp. now nan_arith.
  - injection E as E. apply (f_equal MMSMemristor.W) in E. simpl in E.
    unfold MMSMemristor.getCurrent. rewrite <- E, Hs.
    change (@add F64) with PrimFloat.add. change (@mul F64) with PrimFloat.mul.
    change (@div F64) with PrimFloat.div. change (@sub F64) with PrimFloat.sub.
    now nan_arith.
  - unfold YakopcicMemristor.getCurrent. rewrite Hs.
    change (@add F64) with PrimFloat.add. change (@mul F64) with PrimFloat.mul.
    change (@div F64) with PrimFloat.div. change (@sub F64) with PrimFloat.sub.
    destruct (_ >=? _)%num; now nan_arith.
Qed.

(** A state that is not a number never recovers: from a reachable object
    whose state is NaN every later state is NaN, and so is every current of
    the run.  (The VTEAM current passes the state through [Math.exp], which
    returns NaN for NaN.) *)
Theorem nan_state_is_permanent (m : Memristor) (V_seq : list float) (dt : float) :
  Math_exp nan = nan -> reachable m -> is_nan (state m) = true ->
  is_nan (state (advanced m V_seq dt)) = true
  /\ Forall (fun i => is_nan i = true) (simulateMemristor m V_seq dt).
Proof.
  intros Hexp Hr Hs. apply nan_unique in Hs.
  revert m Hr Hs. induction V_seq as [|V rest IH]; intros m Hr Hs.
  - split; [simpl; now rewrite Hs | constructor].
  - rewrite (simulateMemristor_cons (N := F64) m V rest dt).
    rewrite (advanced_cons (N := F64) m V rest dt).
    destruct (IH (updateState (N := F64) m V dt)) as [Ha Hf].
    + now apply reach_update.
    + now apply updateState_nan.
    + split; [assumption|]. constructor; [|assumption].
      change (is_nan (getCurrent m V) = true). now rewrite getCurrent_nan.
Qed.

End AnyMath.

(** From here on the approximated functions are those of [F64Math]. *)
Local Existing Instance F64Math.

(** C1 at the default linear model, one step at 1 V: the hypotheses hold. *)
Lemma updateState_clamps_state_witness :
  inDomain (updateState (LinearIonDrift LinearIonDriftMemristor.default) 1 1e-9) = true.
Proof.
  refine (proj1 (updateState_clamps_state (L := F64Math)
                   (LinearIonDrift LinearIonDriftMemristor.default) 1 1e-9 _) _);
    vm_compute; reflexivity.
Defined.

(** [F64Math.sinh] returns a zero for a zero. *)
Lemma F64Math_sinh_zero (z : float) :
  is_zero z = true -> is_zero (F64Math.sinh z) = true.
Proof. intros Hz. destruct (is_zero_cases z Hz) as [-> | ->]; reflexivity. Qed.

(** C10 at the default Yakopcic model, started at [x = 0.11] as
    [runSimulation] starts it: the hypotheses hold. *)
Lemma getCurrent_zero_voltage_witness :
  is_zero (getCurrent
             (Yakopcic (YakopcicMemristor.constructor $4000 $4000 $0.5 $0.5 $1 $5 $0.3 $0.3
                          $0.17 $0.17 $0.05 $0.11 $0)) ($0)%num) = true.
Proof.
  apply (getCurrent_zero_voltage (L := F64Math)).
  - exact F64Math_sinh_zero.
  - vm_compute. reflexivity.
Defined.

(** C10 as stated fails: resistances that are positive and finite, and a
    finite state inside its domain, do not make the stored memristance a
    number other than zero.  With both resistances the smallest positive
    binary64 number, each product [R * 0.5] rounds to zero, [M] is [0] and
    the current at zero voltage is [0 / 0]. *)
Lemma getCurrent_zero_voltage_nan :
  let l := LinearIonDriftMemristor.constructor $1e-9 $1e-8 $5e-324 $5e-324 None in
  let m := LinearIonDrift l in
  (0 <? LinearIonDriftMemristor.R_ON l) = true
  /\ is_finite (LinearIonDriftMemristor.R_ON l) = true
  /\ (0 <? LinearIonDriftMemristor.R_OFF l) = true
  /\ is_finite (LinearIonDriftMemristor.R_OFF l) = true
  /\ (0 <? LinearIonDriftMemristor.D l) = true
  /\ is_finite (state m) = true
  /\ inDomain m = true
  /\ LinearIonDriftMemristor.M l = 0
  /\ is_nan (getCurrent m ($0)%num) = true.
Proof. vm_compute. repeat split; reflexivity. Qed.

(** C1 as stated fails: with the resistances both zero the first step at
    1 V leaves the state NaN, which is in no domain; and with a negative
    width [D] the clamp stores [0], above the upper bound. *)
Lemma updateState_leaves_domain :
  let m := LinearIonDrift (LinearIonDriftMemristor.constructor $1e-9 $1e-8 $0 $0 None) in
  let m' := LinearIonDrift (LinearIonDriftMemristor.constructor $1e-9 (- $1e-8) $100 $16e3 None) in
  ((lo m <=? hi m) = true
   /\ inDomain (updateState m $1 $1e-9) = false
   /\ is_nan (state (updateState m $1 $1e-9)) = true)
  /\ ((lo m' <=? hi m') = false
      /\ inDomain (updateState m' $1 $1e-9) = false
      /\ state (updateState m' $1 $1e-9) = 0).
Proof. vm_compute. repeat split; reflexivity. Qed.

(** The hypotheses of the Yakopcic overflow hold of [F64Math.exp]. *)
Lemma updateState_leaves_domain_Yakopcic_witness :
  is_nan (state (advanced (Yakopcic YakopcicMemristor.default) [1000; 1000] 1e-6)) = true.
Proof.
  refine (proj2 (updateState_leaves_domain_Yakopcic (L := F64Math) _ _));
    vm_compute; reflexivity.
Defined.

(** C5. Linear model closed form, bit for bit: from [w = D/2] one step at
    1 V with [dt = 1e-9] stores [w + mu_v*(R_ON/D)*(V/M)*dt], and the
    memristance it starts from is [(R_ON+R_OFF)/2]. *)
Theorem linear_single_step_closed_form :
  let m := LinearIonDriftMemristor.constructor $1e-9 $1e-8 $100 $16000 None in
  let w_old := LinearIonDriftMemristor.w m in
  let M_old := LinearIonDriftMemristor.M m in
  w_old = ($1e-8 / $2)%num
  /\ M_old = (($100 + $16000) / $2)%num
  /\ LinearIonDriftMemristor.w (LinearIonDriftMemristor.updateState m $1 $1e-9)
     = (w_old + $1e-9 * ($100 / $1e-8) * ($1 / M_old) * $1e-9)%num.
Proof. vm_compute. repeat split; reflexivity. Qed.

(** On binary64 four of the six currents are, to the bit, the quotient or
    the product of the voltage and a stored readout. *)
Lemma getCurrent_literal (V : float) :
  (forall m, getCurrent (Biolek m) V = V / BiolekMemristor.M m)
  /\ (forall m, getCurrent (Joglekar m) V = V / JoglekarMemristor.M m)
  /\ (forall m, getCurrent (LinearIonDrift m) V = V / LinearIonDriftMemristor.M m)
  /\ (forall m, getCurrent (MMS m) V = V * MMSMemristor.W m).
Proof. repeat split. Qed.

(** The inputs that refute C4 and C2 in exact arithmetic refute them on
    binary64 as well: with both resistances zero the stored memristance is
    [0]; and the Yakopcic current at 2 V is neither [2 / M] nor [2 * W]
    (here with the hyperbolic sine of [F64Math]; the two sides differ in the
    fourth digit). *)
Lemma memristance_zero_binary64 :
  memristance (LinearIonDrift (LinearIonDriftMemristor.constructor $1e-9 $1e-8 $0 $0 None)) = 0.
Proof. vm_compute. reflexivity. Qed.

Lemma Yakopcic_current_binary64 :
  let m := Yakopcic (YakopcicMemristor.constructor $4000 $4000 $0.5 $0.5 $1 $5 $0.3 $0.3
                       $0.17 $0.17 $0.05 $0.11 $0) in
  (getCurrent m 2 =? 2 / memristance m) = false
  /\ (getCurrent m 2 =? 2 * conductance m) = false
  /\ (0.001872 <? getCurrent m 2) = true /\ (getCurrent m 2 <? 0.001874) = true
  /\ (0.001870 <? 2 * conductance m) = true /\ (2 * conductance m <? 0.001872) = true.
Proof. vm_compute. repeat split; reflexivity. Qed.

(** C6 at the name of the specification's own test. *)
Lemma generateWaveform_unknown_is_sine_witness :
  generateWaveform "bogus" [0; 0.25; 0.5] 1 2 = generateWaveform "sine" [0; 0.25; 0.5] 1 2.
Proof. apply generateWaveform_unknown_is_sine; discriminate. Defined.

(** C9 at two default linear models, the second constructed after the
    first has run. *)
Lemma simulate_deterministic_witness :
  let m1 := LinearIonDrift (LinearIonDriftMemristor.constructor $1e-9 $1e-8 $100 $16e3 None) in
  let m2 := LinearIonDrift LinearIonDriftMemristor.default in
  let s1 := fst (run [] m1 [1; -1] 1e-9) in
  snd (run [] m1 [1; -1] 1e-9) = snd (run s1 m2 [1; -1] 1e-9).
Proof.
  cbv zeta.
  refine (proj1 (simulate_deterministic _ _ _ _ _ _ _ _ _ _ _)); reflexivity.
Defined.

(** A linear model built with a thickness that is not a number. *)
Lemma nan_state_is_permanent_witness :
  let m := LinearIonDrift (LinearIonDriftMemristor.constructor 1e-9 nan 100 16e3 None) in
  is_nan (state (advanced m [1; -1] 1e-6)) = true
  /\ Forall (fun i => is_nan i = true) (simulateMemristor m [1; -1] 1e-6).
Proof.
  intros m. apply (nan_state_is_permanent (L := F64Math) m [1; -1] 1e-6).
  - vm_compute. reflexivity.
  - apply reach_new. constructor.
  - vm_compute. reflexivity.
Defined.

(** The default linear model after two steps at 1 V. *)
Lemma advanced_changes_state_only_witness :
  let m := LinearIonDrift LinearIonDriftMemristor.default in
  advanced m [1; 1] 1e-9 = recompute (with_state m (state (advanced m [1; 1] 1e-9))).
Proof.
  intros m. apply (advanced_changes_state_only (N := F64) m [1; 1] 1e-9).
  apply reach_new. constructor.
Defined.

End Binary64.

(** ** The models in exact arithmetic *)

Section ExactReading.
Import ExactSpec.
Local Existing Instance Exact.
Local Existing Instance ExactMath.
Local Open Scope R_scope.

(** Both clamps land in the interval. *)
Lemma clamp_bounds (lo hi s : R) : lo <= hi -> lo <= Rmax lo (Rmin s hi) <= hi.
Proof. intros H. unfold Rmax, Rmin. repeat destruct (Rle_dec _ _); lra. Qed.

Lemma clamp_bounds' (lo hi s : R) : lo <= hi -> lo <= Rmin hi (Rmax lo s) <= hi.
Proof. intros H. unfold Rmax, Rmin. repeat destruct (Rle_dec _ _); lra. Qed.

Lemma mix_pos (a b t : R) : 0 < a -> 0 < b -> 0 <= t <= 1 -> 0 < a * t + b * (1 - t).
Proof. intros Ha Hb Ht. nra. Qed.

Lemma frac_bounds (w D : R) : 0 < D -> 0 <= w <= D -> 0 <= w / D <= 1.
Proof.
  intros HD Hw. split.
  - apply Rmult_le_pos; [lra|]. left. now apply Rinv_0_lt_compat.
  - apply (Rmult_le_reg_r D); [lra|]. unfold Rdiv. rewrite Rmult_assoc, Rinv_l; lra.
Qed.

Lemma sinh_pos (b : R) : 0 < b -> 0 < sinh b.
Proof.
  intros Hb. unfold sinh.
  assert (exp (- b) < exp b) by (apply exp_increasing; lra). lra.
Qed.


(** The small integer literals of the source. *)
Lemma Q2R_0 : Q2R 0 = 0. Proof. unfold Q2R; simpl; lra. Qed.
Lemma Q2R_1 : Q2R 1 = 1. Proof. unfold Q2R; simpl; lra. Qed.
Lemma Q2R_2 : Q2R 2 = 2. Proof. unfold Q2R; simpl; lra. Qed.
Lemma Q2R_3 : Q2R 3 = 3. Proof. unfold Q2R; simpl; lra. Qed.

Ltac lits := rewrite ?Q2R_0, ?Q2R_1, ?Q2R_2, ?Q2R_3 in *.

Lemma linear_memristance_pos (R_ON R_OFF D w : R) :
  0 < D -> 0 < R_ON -> 0 < R_OFF -> 0 <= w <= D ->
  0 < R_ON * (w / D) + R_OFF * (1 - w / D).
Proof. intros HD Ha Hb Hw. apply mix_pos; auto. now apply frac_bounds. Qed.

Lemma initial_w_bounds (D : R) (w_init : option R) :
  0 < D ->
  0 <= match w_init with
       | Some w_init => Rmax 0 (Rmin w_init D)
       | None => D / 2
       end <= D.
Proof. intros HD. destruct w_init; [apply clamp_bounds|]; lra. Qed.

Lemma mms_conductance_pos (R_on R_off x : R) :
  0 < R_on -> 0 < R_off -> 0 <= x <= 1 -> 0 < x / R_on + (1 - x) / R_off.
Proof.
  intros Ha Hb Hx. unfold Rdiv.
  assert (0 < / R_on) by now apply Rinv_0_lt_compat.
  assert (0 < / R_off) by now apply Rinv_0_lt_compat.
  nra.
Qed.

Lemma inv_pos (x : R) : 0 < x -> 0 < 1 / x.
Proof. intros H. unfold Rdiv. rewrite Rmult_1_l. now apply Rinv_0_lt_compat. Qed.

Lemma yakopcic_conductance_pos (a1 b x_on s : R) :
  0 < a1 -> 0 < b -> 0 < x_on <= 1 -> 0 < a1 * Rmin 1 (Rmax x_on s) * sinh b.
Proof.
  intros Ha Hb Hx. assert (Hs := sinh_pos b Hb).
  assert (Hc := clamp_bounds' x_on 1 s ltac:(lra)).
  apply Rmult_lt_0_compat; [apply Rmult_lt_0_compat|]; lra.
Qed.



Lemma div_by_inv (V W : R) : V / (1 / W) = V * W.
Proof. unfold Rdiv. now rewrite Rmult_1_l, Rinv_inv. Qed.

Lemma mul_inv (V M : R) : V * (1 / M) = V / M.
Proof. unfold Rdiv. now rewrite Rmult_1_l. Qed.

Lemma vteam_current (u R_on l d y : R) :
  R_on <> 0 ->
  u / R_on * exp (- l / d * y) = u / (R_on * exp (l / d * y))
  /\ u / R_on * exp (- l / d * y) = u * (1 / (R_on * exp (l / d * y))).
Proof.
  intros HR.
  replace (- l / d * y) with (- (l / d * y)) by (unfold Rdiv; ring).
  rewrite exp_Ropp.
  assert (exp (l / d * y) <> 0) by (apply Rgt_not_eq, exp_pos).
  split; now field.
Qed.

(** A reachable object is the result of a constructor or of an
    [updateState] call. *)
Ltac last_step Hr :=
  let Hlast := fresh "Hlast" in
  match type of Hr with
  | reachable ?m =>
      assert (Hlast : constructed m \/ exists m0 V dt, m = updateState m0 V dt)
        by (destruct Hr; eauto);
      destruct Hlast as [Hlast | (?m0 & ?V0 & ?dt & ->)];
      [ destruct Hlast | destruct m0 ]
  end.


(** The hyperbolic sine is not linear: [sinh (2 b) = 2 sinh b cosh b]
    and [cosh b > 1]. *)
Lemma sinh_double (b : R) : 0 < b -> 2 * sinh b < sinh (b * 2).
Proof.
  intros Hb. unfold sinh.
  replace (b * 2) with (b + b) by ring.
  replace (- (b + b)) with (- b + - b) by ring.
  rewrite !exp_plus.
  assert (He : 1 < exp b) by (rewrite <- exp_0; apply exp_increasing; lra).
  assert (He' : 0 < exp (- b)) by apply exp_pos.
  assert (Hee : exp b * exp (- b) = 1) by (rewrite <- exp_plus, Rplus_opp_r; apply exp_0).
  set (e := exp b) in *. set (e' := exp (- b)) in *.
  assert (H1 : e' < 1) by nra.
  assert (H2 : 0 < (e - 1) * (e - 1) * e') by (apply Rmult_lt_0_compat; nra).
  assert (H3 : 2 < e + e') by nra.
  assert (H4 : 0 < (e - e') * (e + e' - 2)) by (apply Rmult_lt_0_compat; lra).
  nra.
Qed.


(** The remainder of a time in period number [k]. *)
Lemma trunc_nat_plus (k : nat) (y : R) : 0 <= y < 1 -> Exact.trunc (INR k + y) = Z.of_nat k.
Proof.
  intros Hy. unfold Exact.trunc.
  assert (Hk := pos_INR k).
  destruct (Rle_dec 0 (INR k + y)); [|lra].
  symmetry. apply Int_part_spec. rewrite <- INR_IZR_INZ. lra.
Qed.

Lemma fmod_period (k : nat) (f s : R) :
  0 < f -> 0 <= s < 1 / f ->
  Exact.fmod (2 * PI * f * (INR k / f + s)) (2 * PI) = 2 * PI * f * s.
Proof.
  intros Hf Hs. unfold Exact.fmod.
  assert (Hpi := PI_RGT_0).
  replace (2 * PI * f * (INR k / f + s) / (2 * PI)) with (INR k + f * s) by (field; lra).
  rewrite trunc_nat_plus.
  - rewrite <- INR_IZR_INZ. field. lra.
  - destruct Hs as [Hs0 Hs1]. split; [nra|].
    apply (Rmult_lt_compat_l f) in Hs1; [|assumption].
    replace (f * (1 / f)) with 1 in Hs1 by (field; lra). assumption.
Qed.





(** C5 read in exact arithmetic: the same closed form. *)
Lemma linear_closed_form_in_exact_arithmetic :
  let m := LinearIonDriftMemristor.constructor ($1e-9)%num ($1e-8)%num ($100)%num
             ($16000)%num None in
  let w_old := LinearIonDriftMemristor.w m in
  let M_old := LinearIonDriftMemristor.M m in
  w_old = Q2R 1e-8 / 2
  /\ M_old = (100 + 16000) / 2
  /\ LinearIonDriftMemristor.w (LinearIonDriftMemristor.updateState m 1 (Q2R 1e-9))
     = w_old + Q2R 1e-9 * (100 / Q2R 1e-8) * (1 / M_old) * Q2R 1e-9.
Proof.
  cbv zeta. simpl. lits. unfold Q2R. simpl.
  split; [reflexivity|]. split; [field|].
  unfold Rmax, Rmin. repeat destruct (Rle_dec _ _); try field; exfalso; lra.
Qed.

Import ExactRest.

(** *** Where the state and the memristance of a reachable object lie *)

Lemma exp_le (x y : R) : x <= y -> exp x <= exp y.
Proof. intros [H | ->]; [left; now apply exp_increasing | right; reflexivity]. Qed.

Lemma div_le_r (a b c : R) : 0 < c -> a * c <= b -> a <= b / c.
Proof.
  intros Hc H. apply (Rmult_le_reg_r c); [lra|].
  unfold Rdiv. rewrite Rmult_assoc, Rinv_l; lra.
Qed.

Lemma div_le_l (a b c : R) : 0 < c -> a <= b * c -> a / c <= b.
Proof.
  intros Hc H. apply (Rmult_le_reg_r c); [lra|].
  unfold Rdiv. rewrite Rmult_assoc, Rinv_l; lra.
Qed.

Lemma mix_between (a b t : R) :
  0 <= t <= 1 -> Rmin a b <= a * t + b * (1 - t) <= Rmax a b.
Proof. intros Ht. unfold Rmin, Rmax. destruct (Rle_dec a b); nra. Qed.

Lemma mms_memristance_between (R_on R_off x : R) :
  0 < R_on -> 0 < R_off -> 0 <= x <= 1 ->
  Rmin R_on R_off <= 1 / (x / R_on + (1 - x) / R_off) <= Rmax R_on R_off.
Proof.
  intros Ha Hb Hx.
  assert (HW := mms_conductance_pos R_on R_off x Ha Hb Hx).
  set (W := x / R_on + (1 - x) / R_off) in *.
  assert (Ea : R_on * W = x + (1 - x) * (R_on / R_off)) by (unfold W; field; lra).
  assert (Eb : R_off * W = x * (R_off / R_on) + (1 - x)) by (unfold W; field; lra).
  assert (Hab : R_on <= R_off -> R_on / R_off <= 1 /\ 1 <= R_off / R_on).
  { intros H. split; [apply div_le_l | apply div_le_r]; lra. }
  assert (Hba : R_off <= R_on -> R_off / R_on <= 1 /\ 1 <= R_on / R_off).
  { intros H. split; [apply div_le_l | apply div_le_r]; lra. }
  unfold Rmin, Rmax. destruct (Rle_dec R_on R_off) as [H | H].
  - destruct (Hab H). split; [apply div_le_r | apply div_le_l]; nra.
  - destruct (Hba ltac:(lra)). split; [apply div_le_r | apply div_le_l]; nra.
Qed.

Lemma vteam_memristance_between (R_on R_off w_on w_off w : R) :
  0 < R_on -> 0 < R_off -> w_on < w_off -> w_on <= w <= w_off ->
  Rmin R_on R_off
  <= R_on * exp (ln (R_off / R_on) / (w_off - w_on) * (w - w_on))
  <= Rmax R_on R_off.
Proof.
  intros Ha Hb Hd Hw.
  assert (Hr : 0 < R_off / R_on) by (apply Rdiv_lt_0_compat; lra).
  assert (El := exp_ln _ Hr). set (l := ln (R_off / R_on)) in *.
  assert (Et : l / (w_off - w_on) * (w - w_on) = l * ((w - w_on) / (w_off - w_on)))
    by (field; lra).
  rewrite Et.
  assert (Ht : 0 <= (w - w_on) / (w_off - w_on) <= 1).
  { split; [apply div_le_r | apply div_le_l]; lra. }
  set (t := (w - w_on) / (w_off - w_on)) in *.
  assert (Eoff : R_on * exp l = R_off) by (rewrite El; field; lra).
  unfold Rmin, Rmax. destruct (Rle_dec R_on R_off) as [H | H].
  - assert (Hl : 0 <= l).
    { destruct (Rle_dec 0 l) as [|Hn]; [assumption | exfalso].
      assert (exp l < exp 0) by (apply exp_increasing; lra). rewrite exp_0 in *. nra. }
    assert (H1 : exp 0 <= exp (l * t)) by (apply exp_le; nra).
    assert (H2 : exp (l * t) <= exp l) by (apply exp_le; nra).
    rewrite exp_0 in H1. nra.
  - assert (Hl : l <= 0).
    { destruct (Rle_dec l 0) as [|Hn]; [assumption | exfalso].
      assert (exp 0 < exp l) by (apply exp_increasing; lra). rewrite exp_0 in *. nra. }
    assert (H1 : exp (l * t) <= exp 0) by (apply exp_le; nra).
    assert (H2 : exp l <= exp (l * t)) by (apply exp_le; nra).
    rewrite exp_0 in H1. nra.
Qed.

Lemma yakopcic_memristance_between (a1 b x_on x : R) :
  0 < a1 -> 0 < b -> 0 < x_on -> x_on <= x <= 1 ->
  1 / (a1 * sinh b) <= 1 / (a1 * x * sinh b) <= 1 / (a1 * x_on * sinh b).
Proof.
  intros Ha Hb Hx0 Hx. assert (Hs := sinh_pos b Hb).
  assert (0 < a1 * sinh b) by now apply Rmult_lt_0_compat.
  assert (0 < a1 * x_on * sinh b) by (apply Rmult_lt_0_compat; [apply Rmult_lt_0_compat|]; lra).
  assert (0 < a1 * x * sinh b) by (apply Rmult_lt_0_compat; [apply Rmult_lt_0_compat|]; lra).
  unfold Rdiv. rewrite !Rmult_1_l.
  split; apply Rinv_le_contravar; try assumption.
  - replace (a1 * sinh b) with (a1 * sinh b * 1) by ring.
    replace (a1 * x * sinh b) with (a1 * sinh b * x) by ring.
    apply Rmult_le_compat_l; lra.
  - replace (a1 * x_on * sinh b) with (a1 * sinh b * x_on) by ring.
    replace (a1 * x * sinh b) with (a1 * sinh b * x) by ring.
    apply Rmult_le_compat_l; lra.
Qed.

Lemma params_ok_domain (m : Memristor) : params_ok m -> lo m <= hi m.
Proof. destruct m; simpl; lits; lra. Qed.

Lemma reachable_in_domain (m : Memristor) :
  reachable m -> lo m <= hi m -> lo m <= state m <= hi m.
Proof.
  intros Hr Hd. last_step Hr; simpl in *; lits.
  all: try (apply clamp_bounds; assumption).
  all: try (apply clamp_bounds'; assumption).
  all: destruct w_init; [apply clamp_bounds; assumption | lra].
Qed.

(** The readouts [M] and [W] of a reachable object, as functions of its
    parameters and state. *)
Lemma reachable_readouts (m : Memristor) :
  reachable m ->
  memristance m = memristance (recompute m)
  /\ conductance m = conductance (recompute m).
Proof. intros Hr. now rewrite (recompute_reachable m Hr). Qed.


(** *** Integer powers *)

Lemma Int_part_IZR (z : Z) : Int_part (IZR z) = z.
Proof. symmetry. apply Int_part_spec. lra. Qed.

Lemma pow_integer (x : R) (z : Z) : ExactMath.pow x (IZR z) = powerRZ x z.
Proof.
  unfold ExactMath.pow. rewrite Int_part_IZR.
  destruct (Req_dec_T (IZR z) (IZR z)); [reflexivity | contradiction].
Qed.

Lemma pow_even (x : R) (n : nat) : ExactMath.pow x (2 * INR n) = (x * x) ^ n.
Proof.
  replace (2 * INR n) with (IZR (Z.of_nat (2 * n))).
  - rewrite pow_integer, <- pow_powerRZ. apply pow_sqr.
  - rewrite <- INR_IZR_INZ, mult_INR. simpl. lra.
Qed.

Lemma pow_one (y : R) : ExactMath.pow 1 y = 1.
Proof.
  unfold ExactMath.pow. destruct (Req_dec_T _ _); [apply powerRZ_R1|].
  unfold Rpower. rewrite ln_1, Rmult_0_r. apply exp_0.
Qed.

Lemma pow_minus_one_even (z : Z) : ExactMath.pow (-1) (2 * IZR z) = 1.
Proof.
  rewrite <- mult_IZR, pow_integer.
  destruct z as [|q|q]; simpl; [reflexivity | |].
  - rewrite Pos2Nat.inj_xO. apply pow_1_even.
  - rewrite Pos2Nat.inj_xO, pow_1_even. apply Rinv_1.
Qed.

Lemma pow_even_bounds (x : R) (n : nat) :
  -1 <= x <= 1 -> 0 <= ExactMath.pow x (2 * INR n) <= 1.
Proof.
  intros Hx. rewrite pow_even.
  assert (H : 0 <= x * x <= 1) by nra. split.
  - apply pow_le. lra.
  - rewrite <- (pow1 n). now apply pow_incr.
Qed.

Lemma pow_pos (x y : R) : 0 < x -> 0 < ExactMath.pow x y.
Proof.
  intros Hx. unfold ExactMath.pow. destruct (Req_dec_T _ _).
  - now apply powerRZ_lt.
  - apply exp_pos.
Qed.

(** *** Saturation *)

Lemma clamp_id (lo hi s : R) : lo <= s <= hi -> Rmax lo (Rmin s hi) = s.
Proof. intros H. unfold Rmax, Rmin. repeat destruct (Rle_dec _ _); lra. Qed.

Lemma clamp_id' (lo hi s : R) : lo <= s <= hi -> Rmin hi (Rmax lo s) = s.
Proof. intros H. unfold Rmax, Rmin. repeat destruct (Rle_dec _ _); lra. Qed.

Lemma clamp_in_domain (m : Memristor) (s : R) :
  lo m <= s <= hi m -> clamp m s = s.
Proof. intros H. destruct m; simpl in *; now (apply clamp_id || apply clamp_id'). Qed.

Lemma clamp_monotone (m : Memristor) (s s' : R) :
  s <= s' -> clamp m s <= clamp m s'.
Proof.
  intros H. destruct m; simpl; unfold Rmax, Rmin; repeat destruct (Rle_dec _ _); lra.
Qed.


Lemma reachable_memristance_pos (m : Memristor) :
  reachable m -> params_ok m -> 0 < memristance m.
Proof.
  intros Hr Hp.
  assert (Hs := reachable_in_domain m Hr (params_ok_domain m Hp)).
  destruct (reachable_readouts m Hr) as [-> _].
  destruct m as [b | j | l | v | s | y]; simpl in *; lits.
  - apply linear_memristance_pos; tauto.
  - apply linear_memristance_pos; tauto.
  - apply linear_memristance_pos; tauto.
  - apply Rmult_lt_0_compat; [tauto | apply exp_pos].
  - apply inv_pos, mms_conductance_pos; tauto.
  - apply inv_pos. assert (Hb := sinh_pos (YakopcicMemristor.b y) ltac:(tauto)).
    apply Rmult_lt_0_compat; [apply Rmult_lt_0_compat|]; lra.
Qed.

Lemma div_neg (V M : R) : V < 0 -> 0 < M -> V / M < 0.
Proof.
  intros HV HM. assert (0 < / M) by now apply Rinv_0_lt_compat.
  unfold Rdiv. nra.
Qed.


Lemma clamp_step_up (m : Memristor) (e : R) :
  lo m <= state m <= hi m -> 0 <= e -> state m <= clamp m (state m + e).
Proof.
  intros Hs He. assert (E := clamp_in_domain m (state m) Hs).
  assert (H : state m <= state m + e) by lra.
  apply (clamp_monotone m) in H. now rewrite E in H.
Qed.

Lemma clamp_step_down (m : Memristor) (e : R) :
  lo m <= state m <= hi m -> e <= 0 -> clamp m (state m + e) <= state m.
Proof.
  intros Hs He. assert (E := clamp_in_domain m (state m) Hs).
  assert (H : state m + e <= state m) by lra.
  apply (clamp_monotone m) in H. now rewrite E in H.
Qed.

Lemma div_sign (V M : R) : 0 < M -> (0 <= V -> 0 <= V / M) /\ (V <= 0 -> V / M <= 0).
Proof.
  intros HM. assert (0 < / M) by now apply Rinv_0_lt_compat.
  unfold Rdiv. split; intros; nra.
Qed.

Lemma drift_sign (k V M f dt : R) :
  0 <= k -> 0 < M -> 0 <= f -> 0 <= dt ->
  (0 <= V -> 0 <= k * (V / M) * f * dt) /\ (V <= 0 -> k * (V / M) * f * dt <= 0).
Proof.
  intros Hk HM Hf Hdt. destruct (div_sign V M HM) as [H1 H2].
  assert (0 <= k * f * dt) by (repeat apply Rmult_le_pos; assumption).
  split; intros HV; [specialize (H1 HV) | specialize (H2 HV)]; nra.
Qed.

Lemma prod_sign_pos (a p f dt : R) :
  0 <= a -> 0 < p -> 0 < f -> 0 <= dt -> 0 <= a * p * f * dt.
Proof. intros. repeat apply Rmult_le_pos; lra. Qed.

Lemma prod_sign_neg (a p f dt : R) :
  a <= 0 -> 0 < p -> 0 < f -> 0 <= dt -> a * p * f * dt <= 0.
Proof.
  intros Ha Hp Hf Hdt. assert (0 <= p * f * dt) by (repeat apply Rmult_le_pos; lra).
  nra.
Qed.

Lemma ratio_above_threshold (u V : R) : 0 < u -> u < V -> 0 < V / u - 1.
Proof.
  intros Hu HV. replace (V / u - 1) with ((V - u) / u) by (field; lra).
  apply Rdiv_lt_0_compat; lra.
Qed.

Lemma ratio_below_threshold (u V : R) : V < u -> u < 0 -> 0 < V / u - 1.
Proof.
  intros HV Hu. replace (V / u - 1) with ((u - V) / (- u)) by (field; lra).
  apply Rdiv_lt_0_compat; lra.
Qed.




(** *** The range of the waveforms *)

Lemma fmod_range (x y : R) : 0 <= x -> 0 < y -> 0 <= Exact.fmod x y < y.
Proof.
  intros Hx Hy. unfold Exact.fmod, Exact.trunc.
  assert (Hq : 0 <= x / y) by (apply div_le_r; lra).
  destruct (Rle_dec 0 (x / y)); [|contradiction].
  destruct (base_Int_part (x / y)) as [H1 H2].
  set (k := IZR (Int_part (x / y))) in *.
  assert (E : x = y * (x / y)) by (field; lra).
  split; nra.
Qed.

Lemma scale_bound (A c : R) : -1 <= c <= 1 -> Rabs (A * c) <= Rabs A.
Proof.
  intros Hc. rewrite Rabs_mult.
  assert (Rabs c <= 1) by (apply Rabs_le; lra).
  assert (0 <= Rabs A) by apply Rabs_pos. nra.
Qed.

Lemma sign_bound (x : R) : -1 <= x <= 1 -> -1 <= Exact.sign x <= 1.
Proof. intros Hx. unfold Exact.sign. repeat destruct (Rlt_dec _ _); lra. Qed.

Lemma phase_fraction (phase : R) :
  0 <= phase < 2 * PI -> 0 <= phase / PI < 2.
Proof.
  intros H. assert (HPI := PI_RGT_0).
  split; [apply div_le_r; lra|].
  apply (Rmult_lt_reg_r PI); [lra|].
  unfold Rdiv. rewrite Rmult_assoc, Rinv_l; lra.
Qed.


(** Before time zero the remainder takes the sign of the time, and the
    triangle wave leaves the band: a quarter period before zero it stands at
    twice the amplitude. *)
Lemma triangle_overshoots_before_zero :
  generateWaveform "triangle" [- (1 / 4)] 1 1 = [-2].
Proof.
  assert (HPI := PI_RGT_0).
  unfold generateWaveform. simpl. lits.
  assert (E : Exact.fmod (2 * PI * 1 * - (1 / 4)) (2 * PI) = - (PI / 2)).
  { unfold Exact.fmod, Exact.trunc.
    replace (2 * PI * 1 * - (1 / 4) / (2 * PI)) with (- (1 / 4)) by (field; lra).
    destruct (Rle_dec 0 (- (1 / 4))); [lra|].
    replace (- - (1 / 4)) with (1 / 4) by ring.
    replace (Int_part (1 / 4)) with 0%Z by (apply Int_part_spec; simpl; lra).
    simpl. field. }
  rewrite E. unfold Exact.Rltb. destruct (Rlt_dec (- (PI / 2)) PI); [|lra].
  f_equal. field. lra.
Qed.

(** *** The properties above at the default objects *)








End ExactReading.

(** ** Theme management *)

Module ThemeFacts.
Import Theme.
Local Open Scope string_scope.

Lemma truthy_preferred (p : page) :
  truthy (stored_theme p) = true -> Some (preferred p) = stored_theme p.
Proof.
  unfold truthy, preferred. destruct (stored_theme p) as [saved|]; [|discriminate].
  now destruct (String.eqb saved "").
Qed.

Lemma falsy_preferred (p : page) :
  truthy (stored_theme p) = false -> preferred p = getSystemTheme p.
Proof.
  unfold truthy, preferred. destruct (stored_theme p) as [saved|]; [|reflexivity].
  now destruct (String.eqb saved "").
Qed.

Lemma saved_preferred (p q : page) :
  truthy (stored_theme p) = true -> stored_theme q = stored_theme p ->
  preferred q = preferred p.
Proof.
  unfold truthy, preferred. intros Ht ->.
  destruct (stored_theme p) as [saved|]; [|discriminate].
  now destruct (String.eqb saved "").
Qed.

Lemma updateThemeButton_spec (theme : string) (p : page) :
  data_theme (updateThemeButton theme p) = data_theme p
  /\ stored_theme (updateThemeButton theme p) = stored_theme p
  /\ prefers_dark (updateThemeButton theme p) = prefers_dark p
  /\ listeners (updateThemeButton theme p) = listeners p
  /\ simulatorUI (updateThemeButton theme p) = simulatorUI p
  /\ simulations (updateThemeButton theme p) = simulations p
  /\ themeToggle (updateThemeButton theme p)
     = match themeToggle p with Some _ => Some (button_for theme) | None => None end.
Proof. destruct p as [dt st [b|] pd ls ui sims]; repeat split; reflexivity. Qed.

Lemma DOMContentLoaded_consistent (p : page) : consistent (DOMContentLoaded p).
Proof.
  assert (E : forall theme q, data_theme q = Some theme -> preferred q = theme ->
              (truthy (stored_theme q) = false -> (0 < listeners q)%nat) ->
              (forall b, themeToggle q = Some b -> b = button_for theme) ->
              consistent q).
  { intros theme q H1 H2 H3 H4. split; rewrite ?H2; auto. }
  destruct p as [dt st bt pd ls ui sims].
  unfold DOMContentLoaded, initializeTheme.
  set (theme := match stored_theme _ with Some _ => _ | None => _ end).
  destruct (updateThemeButton_spec theme
              (setAttribute theme (mkPage dt st bt pd ls ui sims)))
    as (H1 & H2 & H3 & H4 & H5 & H6 & H7).
  simpl in *.
  apply (E theme).
  - destruct (negb (truthy st)); simpl; assumption.
  - unfold preferred. destruct (negb (truthy st)); simpl; rewrite H2; try rewrite H3;
      reflexivity.
  - destruct (negb (truthy st)) eqn:Et; simpl; rewrite H2.
    + intros _. lia.
    + intros Hf. rewrite Hf in Et. discriminate.
  - destruct (negb (truthy st)); simpl; rewrite H7; intros b Hb;
      destruct bt; now inversion Hb.
Qed.

Lemma toggleTheme_consistent (p : page) :
  consistent (toggleTheme p) /\ truthy (stored_theme (toggleTheme p)) = true.
Proof.
  destruct p as [dt st bt pd ls ui sims].
  unfold toggleTheme.
  set (newTheme := match data_theme _ with Some _ => _ | None => _ end).
  assert (Hn : newTheme = "light" \/ newTheme = "dark").
  { unfold newTheme. simpl. destruct dt as [current|]; [|now right].
    destruct (String.eqb current "dark"); auto. }
  clearbody newTheme.
  destruct Hn as [-> | ->]; destruct bt, ui; simpl;
    (split; [split; simpl; try reflexivity; try discriminate|reflexivity]);
    intros b Hb; now inversion Hb.
Qed.

Lemma onSystemChange_spec (matches : bool) (p : page) :
  let q := onSystemChange matches p in
  stored_theme q = stored_theme p /\ prefers_dark q = prefers_dark p
  /\ listeners q = listeners p
  /\ (truthy (stored_theme p) = true -> q = p)
  /\ (truthy (stored_theme p) = false ->
      data_theme q = Some (if matches then "dark" else "light")
      /\ forall b, themeToggle q = Some b ->
                   b = button_for (if matches then "dark" else "light")).
Proof.
  unfold onSystemChange.
  destruct (truthy (stored_theme p)) eqn:Et; simpl.
  - repeat split; try reflexivity; discriminate.
  - set (newTheme := if matches then "dark" else "light").
    destruct (updateThemeButton_spec newTheme (setAttribute newTheme p))
      as (H1 & H2 & H3 & H4 & H5 & H6 & H7).
    simpl in *.
    destruct (simulatorUI (updateThemeButton newTheme (setAttribute newTheme p)));
      simpl; repeat split; try assumption; try discriminate.
    all: rewrite H7; intros b Hb; destruct (themeToggle p); now inversion Hb.
Qed.

Lemma systemChange_consistent (matches : bool) (p : page) :
  consistent p ->
  consistent (systemChange matches p)
  /\ stored_theme (systemChange matches p) = stored_theme p.
Proof.
  intros [H1 H2 H3]. unfold systemChange.
  set (p1 := mkPage _ _ _ matches _ _ _).
  assert (Hst : stored_theme p1 = stored_theme p) by reflexivity.
  assert (Hiter : forall k, let q := Nat.iter k (onSystemChange matches) p1 in
            stored_theme q = stored_theme p /\ prefers_dark q = matches
            /\ listeners q = listeners p).
  { induction k as [|k (IH1 & IH2 & IH3)]; [repeat split|].
    simpl. destruct (onSystemChange_spec matches (Nat.iter k (onSystemChange matches) p1))
      as (A1 & A2 & A3 & _). cbv zeta in *. rewrite A1, A2, A3. auto. }
  destruct (truthy (stored_theme p)) eqn:Et.
  - assert (Hid : forall k, Nat.iter k (onSystemChange matches) p1 = p1).
    { induction k as [|k IH]; [reflexivity|]. simpl. rewrite IH.
      apply onSystemChange_spec. now rewrite Hst. }
    rewrite Hid. split; [|reflexivity].
    assert (Hp : preferred p1 = preferred p)
      by now apply saved_preferred.
    split; simpl; rewrite ?Hp; auto.
    rewrite Et. discriminate.
  - specialize (H3 eq_refl). destruct (listeners p) as [|k] eqn:El; [lia|].
    simpl. specialize (Hiter k). cbv zeta in Hiter. destruct Hiter as (B1 & B2 & B3).
    set (r := Nat.iter k (onSystemChange matches) p1) in *.
    destruct (onSystemChange_spec matches r) as (A1 & A2 & A3 & _ & A5).
    cbv zeta in *. rewrite B1 in A5. destruct (A5 Et) as [A6 A7].
    assert (Hp : preferred (onSystemChange matches r) = if matches then "dark" else "light").
    { rewrite falsy_preferred by (rewrite A1, B1; exact Et).
      unfold getSystemTheme. rewrite A2, B2. reflexivity. }
    split; [split; rewrite ?Hp; auto | now rewrite A1, B1].
    intros _. rewrite A3, B3. lia.
Qed.

Lemma handle_consistent (p : page) (e : event) :
  consistent p ->
  consistent (handle p e)
  /\ (truthy (stored_theme p) = true -> truthy (stored_theme (handle p e)) = true).
Proof.
  intros Hc. destruct e as [|matches]; simpl.
  - destruct (themeToggle p); [|auto].
    destruct (toggleTheme_consistent p). auto.
  - destruct (systemChange_consistent matches p Hc) as [H1 H2].
    split; [assumption | now rewrite H2].
Qed.

Lemma fold_handle_consistent (events : list event) (p : page) :
  consistent p ->
  consistent (fold_left handle events p)
  /\ (truthy (stored_theme p) = true ->
      truthy (stored_theme (fold_left handle events p)) = true).
Proof.
  revert p. induction events as [|e rest IH]; intros p Hc; [auto|].
  simpl. destruct (handle_consistent p e Hc) as [H1 H2].
  destruct (IH _ H1) as [H3 H4]. auto.
Qed.

(** In every session, whatever the page was when it loaded and whatever
    clicks and system changes follow, the document shows the preferred
    theme (the saved one where there is one, the system's otherwise) and
    the toggle button, where the page has one, is drawn for it. *)
Theorem session_shows_preferred_theme (p : page) (events : list event) :
  let q := session p events in
  data_theme q = Some (preferred q)
  /\ forall b, themeToggle q = Some b -> b = button_for (preferred q).
Proof.
  destruct (fold_handle_consistent events _ (DOMContentLoaded_consistent p))
    as [[H1 H2 _] _].
  split; assumption.
Qed.

Lemma updateThemeButton_has_button (theme : string) (p : page) :
  has_button (updateThemeButton theme p) = has_button p.
Proof. destruct p as [dt st [b|] pd ls ui sims]; reflexivity. Qed.

Lemma onSystemChange_has_button (matches : bool) (p : page) :
  has_button (onSystemChange matches p) = has_button p.
Proof.
  unfold onSystemChange. destruct (negb _); [|reflexivity].
  destruct (simulatorUI _); simpl; unfold has_button; simpl;
    apply updateThemeButton_has_button.
Qed.

Lemma handle_has_button (p : page) (e : event) :
  has_button (handle p e) = has_button p.
Proof.
  destruct e as [|matches]; simpl.
  - destruct (themeToggle p) eqn:Eb; [|reflexivity].
    unfold toggleTheme. destruct (simulatorUI _); simpl; unfold has_button; simpl;
      apply updateThemeButton_has_button.
  - unfold systemChange. set (p1 := mkPage _ _ _ _ _ _ _).
    assert (H1 : has_button p1 = has_button p) by reflexivity. clearbody p1.
    generalize (listeners p1). intros n. induction n as [|k IH]; [exact H1|].
    simpl. now rewrite onSystemChange_has_button.
Qed.

Lemma session_has_button (p : page) (events : list event) :
  has_button (session p events) = has_button p.
Proof.
  unfold session.
  assert (H : has_button (DOMContentLoaded p) = has_button p).
  { unfold DOMContentLoaded, initializeTheme, has_button. simpl.
    destruct (negb _); simpl; apply updateThemeButton_has_button. }
  rewrite <- H. generalize (DOMContentLoaded p). clear H.
  induction events as [|e rest IH]; intros q; [reflexivity|].
  simpl. now rewrite IH, handle_has_button.
Qed.

(** The button and the chart never disagree: in every session of a page
    with the toggle button, either the button shows the moon and reads
    Dark and the chart is drawn with the dark palette, or it shows the sun
    and reads Light and the chart is drawn with the light one. *)
Theorem button_and_chart_agree (p : page) (events : list event) :
  has_button p = true ->
  let q := session p events in
  (themeToggle q = Some ("fas fa-moon icon", "Dark")
   /\ getChartColors q = mkColors "#334155" "#475569" "#1e293b" "#f1f5f9" "#818cf8")
  \/ (themeToggle q = Some ("fas fa-sun icon", "Light")
      /\ getChartColors q = mkColors "#e2e8f0" "#cbd5e0" "#ffffff" "#2d3748" "#4f46e5").
Proof.
  intros Hb q.
  destruct (fold_handle_consistent events _ (DOMContentLoaded_consistent p))
    as [[H1 H2 _] _].
  fold (session p events) in H1, H2. fold q in H1, H2.
  assert (Hq : has_button q = true) by (unfold q; now rewrite session_has_button).
  unfold has_button in Hq. destruct (themeToggle q) as [b|]; [|discriminate].
  rewrite (H2 b eq_refl). unfold getChartColors, button_for. rewrite H1.
  destruct (String.eqb (preferred q) "dark"); [left | right]; split; reflexivity.
Qed.

(** A page with the button, loaded while the system prefers dark, clicked
    twice. *)
Lemma button_and_chart_agree_witness :
  let q := session (mkPage None None (Some ("", "")) true 0 false 0) [Click; Click] in
  (themeToggle q = Some ("fas fa-moon icon", "Dark")
   /\ getChartColors q = mkColors "#334155" "#475569" "#1e293b" "#f1f5f9" "#818cf8")
  \/ (themeToggle q = Some ("fas fa-sun icon", "Light")
      /\ getChartColors q = mkColors "#e2e8f0" "#cbd5e0" "#ffffff" "#2d3748" "#4f46e5").
Proof.
  apply (button_and_chart_agree (mkPage None None (Some ("", "")) true 0 false 0)
           [Click; Click]).
  reflexivity.
Defined.

Lemma DOMContentLoaded_stored (p : page) :
  stored_theme (DOMContentLoaded p) = stored_theme p.
Proof.
  unfold DOMContentLoaded, initializeTheme. simpl.
  set (theme := match stored_theme p with Some _ => _ | None => _ end).
  destruct (updateThemeButton_spec theme (setAttribute theme p)) as (_ & H & _).
  destruct (negb _); simpl; exact H.
Qed.

(** The choice made with the toggle button survives a reload: once the
    button has been clicked in a session, a later load of the page with the
    local storage the session left shows the theme the session ended with,
    whatever the system's colour scheme is by then. *)
Theorem theme_choice_survives_reload
    (p : page) (before after : list event) (p' : page) :
  has_button p = true ->
  stored_theme p' = stored_theme (session p (before ++ Click :: after)) ->
  data_theme (DOMContentLoaded p') = data_theme (session p (before ++ Click :: after)).
Proof.
  intros Hb Hst.
  assert (Hq : consistent (session p (before ++ Click :: after))
               /\ truthy (stored_theme (session p (before ++ Click :: after))) = true).
  { unfold session. rewrite fold_left_app. simpl.
    assert (Hr := session_has_button p before). unfold session in Hr.
    destruct (fold_handle_consistent before _ (DOMContentLoaded_consistent p)) as [Hc _].
    set (r := fold_left handle before (DOMContentLoaded p)) in *.
    rewrite Hb in Hr. unfold has_button in Hr.
    destruct (themeToggle r); [|discriminate].
    destruct (toggleTheme_consistent r) as [Hc' Ht].
    destruct (fold_handle_consistent after _ Hc'). auto. }
  destruct Hq as [[Hd _ _] Ht].
  set (q := session p (before ++ Click :: after)) in *.
  destruct (DOMContentLoaded_consistent p') as [Hd' _ _].
  rewrite Hd, Hd'. f_equal.
  apply saved_preferred; [assumption|].
  now rewrite DOMContentLoaded_stored.
Qed.

(** A page with the button, loaded while the system prefers light, clicked
    once. *)
Lemma theme_choice_survives_reload_witness :
  let p := mkPage None None (Some ("", "")) false 0 false 0 in
  let p' := mkPage None (Some "dark") (Some ("", "")) false 0 false 0 in
  data_theme (DOMContentLoaded p') = data_theme (session p ([] ++ Click :: [])).
Proof.
  intros p p'.
  apply (theme_choice_survives_reload p [] [] p'); reflexivity.
Defined.

End ThemeFacts.

(** ** Model-specific parameter rows *)

Module ControlsFacts.
Import Controls.
Local Open Scope string_scope.

Lemma matches_set_display (class value : string) (el : element) :
  matches class (set_display value el) = matches class el.
Proof. reflexivity. Qed.

Lemma existsb_single {A : Type} (f : A -> bool) (a : A) : existsb f [a] = f a.
Proof. simpl. apply orb_false_r. Qed.

(** One pass over the document does what the two passes do. *)
Lemma updateModelControls_each (m : string) (document : list element) :
  updateModelControls m document
  = map (fun el => if matches ("param-" ++ m) el then set_display "flex" el
                   else if existsb (fun class => matches class el) model_rows
                        then set_display "none" el else el) document.
Proof.
  unfold updateModelControls, forEach_display. rewrite map_map.
  apply map_ext. intros el. rewrite existsb_single.
  destruct (existsb _ model_rows) eqn:E.
  - rewrite matches_set_display. now destruct (matches _ el).
  - reflexivity.
Qed.

Lemma known_model_row (m : string) (el : element) :
  In m model_types ->
  matches ("param-" ++ m) el = true ->
  existsb (fun class => matches class el) model_rows = true.
Proof.
  intros Hm H. apply existsb_exists. exists ("param-" ++ m). split; [|assumption].
  simpl in Hm. unfold model_rows.
  repeat (destruct Hm as [<- | Hm]; [simpl; tauto|]). contradiction.
Qed.


(** With a selector value that is no known model type a row of that class
    stays visible after the next selection. *)
Lemma updateModelControls_stale_row :
  let row := mkElement ["param-custom"] "" in
  updateModelControls "linear" (updateModelControls "custom" [row])
  = [mkElement ["param-custom"] "flex"]
  /\ updateModelControls "linear" [row] = [row].
Proof. split; reflexivity. Qed.


End ControlsFacts.

(** ** One run of the simulator *)

Section RunFacts.
Import F64Spec F64Facts Run.
Local Existing Instance F64.
Context {L : MathLib F64}.
Local Open Scope float_scope.

Lemma simulateMemristor_length (m : Memristor) (V_seq : list float) (dt : float) :
  List.length (simulateMemristor m V_seq dt) = List.length V_seq.
Proof.
  revert m. induction V_seq as [|V rest IH]; intros m; [reflexivity|].
  rewrite (simulateMemristor_cons (N := F64) m V rest dt). simpl. now rewrite IH.
Qed.

Lemma generateWaveform_length (type : string) (t : list float) (frequency amplitude : float) :
  List.length (generateWaveform type t frequency amplitude) = List.length t.
Proof.
  unfold generateWaveform.
  repeat match goal with |- context [if ?b then _ else _] => destruct b end;
    apply length_map.
Qed.

Lemma memristor_of_known (c : controls) :
  In (modelType c) Controls.model_types <-> memristor_of c <> None.
Proof.
  unfold memristor_of, Controls.model_types. simpl.
  repeat match goal with
    | |- context [String.eqb ?a ?b] =>
        destruct (String.eqb_spec a b) as [-> | ?]; [split; [discriminate | tauto]|]
    end.
  split; [|congruence]. intros H.
  repeat (destruct H as [H | H]; [congruence|]). contradiction.
Qed.

Lemma Array_from_length (length : float) (mapFn : float -> float) (t : list float) :
  Array_from length mapFn = Some t -> List.length t = Z.to_nat (ToLength length).
Proof.
  unfold Array_from. destruct (_ <=? _)%Z; [|discriminate].
  intros [= <-]. now rewrite length_map, length_seq.
Qed.

(** The status of a run.  It is an error in two cases only: the number of
    points exceeds [2^32 - 1], or the model type is none of the six and
    there is at least one point.  Otherwise the run completes, and the
    voltage and current arrays have as many entries as there are points:
    none when the number of points is NaN or not positive. *)
Theorem runSimulation_status (c : controls) :
  let len := ToLength (numPoints c) in
  if (2 ^ 32 - 1 <? len)%Z then runSimulation c = Simulation_error
  else match memristor_of c with
       | Some memristor =>
           exists V_seq,
             runSimulation c
             = Simulation_complete (numPoints c) V_seq
                 (simulateMemristor memristor V_seq (dt c))
             /\ List.length V_seq = Z.to_nat len
             /\ List.length (simulateMemristor memristor V_seq (dt c)) = Z.to_nat len
       | None =>
           runSimulation c
           = if (len =? 0)%Z then Simulation_complete (numPoints c) [] []
             else Simulation_error
       end.
Proof.
  intros len. unfold runSimulation.
  destruct (Array_from (numPoints c) (fun i => i * dt c)) as [t|] eqn:Et.
  - assert (Hlen := Array_from_length _ _ _ Et). fold len in Hlen.
    unfold Array_from in Et. fold len in Et.
    destruct (Z.leb_spec len (2 ^ 32 - 1)) as [Hle|]; [|discriminate].
    destruct (Z.ltb_spec (2 ^ 32 - 1) len) as [|_]; [lia|].
    destruct (memristor_of c) as [memristor|].
    + eexists. split; [reflexivity|].
      now rewrite simulateMemristor_length, generateWaveform_length.
    + assert (Hv := generateWaveform_length (waveform c) t (frequency c) (amplitude c)).
      assert (Hpos : (0 <= len)%Z).
      { unfold len, ToLength.
        destruct (Prim2SF (numPoints c)) as [s | [] | | [] m e];
          try lia; try (now vm_compute).
        apply Z.min_glb; [now vm_compute|]. destruct (0 <=? e)%Z eqn:Ee.
        - apply Z.leb_le in Ee. apply Z.mul_nonneg_nonneg; [lia|].
          now apply Z.pow_nonneg.
        - apply Z.div_pos; [lia|]. apply Z.pow_pos_nonneg; [lia|].
          apply Z.leb_gt in Ee. lia. }
      destruct (generateWaveform _ _ _ _) as [|V rest]; simpl in Hv.
      * destruct (Z.eqb_spec len 0); [reflexivity|]. lia.
      * destruct (Z.eqb_spec len 0) as [E|]; [|reflexivity].
        rewrite E in Hlen. simpl in Hlen. lia.
  - unfold Array_from in Et. fold len in Et.
    destruct (Z.leb_spec len (2 ^ 32 - 1)); [discriminate|].
    destruct (Z.ltb_spec (2 ^ 32 - 1) len); [reflexivity|lia].
Qed.

Lemma div_positive_by_zero (x : float) : (0 <? x) = true -> x / 0 = infinity.
Proof.
  intros H. apply Prim2SF_inj. rewrite div_spec.
  rewrite ltb_spec in H. change (Prim2SF 0) with (S754_zero false) in *.
  destruct (Prim2SF x) as [s | s | | s m e]; try discriminate;
    destruct s; try discriminate; reflexivity.
Qed.


End RunFacts.

Section RunExamples.
Import Run.
Local Existing Instance F64.
Local Existing Instance F64Math.
Local Open Scope float_scope.


End RunExamples.
